(** * WCA rankings filter: a shallow embedding of [filter.py]

    The program loads two tables of the WCA export, joins them, looks a
    competitor up by event, country and rank, and renders the rank and the
    encoded result as text.  This file embeds the functions of the core
    ([merge_data], [get_person_by_rank], [format_rank], [format_time],
    [format_mbf_result], [format_best_result], [format_event_name]) and
    proves the properties stated about them.

    Python integers are unbounded, so they are [Z]; Python [str] is
    [string]; an exception is a [Raise] in the small error monad
    [py_result]; a pandas data frame is the list of its rows. *)

From Stdlib Require Import ZArith QArith Qcanon Ascii String.
From stdpp Require Import base tactics option list numbers strings gmap.

#[local] Open Scope Z_scope.

(** ** Python primitives *)

Module Py.

(** The exceptions the built-ins used by the program can raise. *)
Inductive exn : Set := ValueError | OverflowError.

Inductive py_result (A : Type) : Type :=
| Ok (a : A)
| Raise (e : exn).
Arguments Ok {A} a.
Arguments Raise {A} e.

Definition bind {A B} (m : py_result A) (k : A → py_result B) : py_result B :=
  match m with
  | Ok a => k a
  | Raise e => Raise e
  end.

#[export] Instance py_result_ret : MRet py_result := λ A a, Ok a.
#[export] Instance py_result_bind : MBind py_result := λ A B k m, bind m k.

(** *** Decimal digits *)

Definition ascii_of_digit (d : Z) : ascii := ascii_of_N (Z.to_N (48 + d)).

Definition digit_of_ascii (c : ascii) : option Z :=
  let n := Z.of_N (N_of_ascii c) in
  if (48 <=? n) && (n <=? 57) then Some (n - 48) else None.

(** Most significant digit first.  [acc] holds the digits already produced;
    the fuel passed by [decimal_digits] always suffices
    (lemma [digits_aux_spec]). *)
Fixpoint digits_aux (fuel : nat) (n : Z) (acc : list Z) : list Z :=
  match fuel with
  | O => acc
  | S fuel' =>
      if n <? 10 then n :: acc
      else digits_aux fuel' (n `div` 10) (n `mod` 10 :: acc)
  end.

Definition decimal_digits (n : Z) : list Z :=
  digits_aux (S (Z.to_nat (Z.log2 n))) n [].

Definition digits_value (ds : list Z) : Z :=
  foldl (λ a d, 10 * a + d) 0 ds.

Definition is_digit (d : Z) : Prop := 0 ≤ d ≤ 9.

(** *** [str(n)] and the format specification [0{w}d] *)

Definition sign_chars (n : Z) : list ascii :=
  if n <? 0 then ["-"%char] else [].

Definition digit_chars (n : Z) : list ascii :=
  ascii_of_digit <$> decimal_digits (Z.abs n).

(** [str(n)], also [f"{n}"].  The bound CPython puts on the number of
    digits of a converted integer is not modelled. *)
Definition str (n : Z) : string :=
  string_of_list_ascii (sign_chars n ++ digit_chars n).

(** [f"{n:0{w}d}"]: sign first, then zeros up to a total width of [w]. *)
Definition format_0d (w : nat) (n : Z) : string :=
  let s := sign_chars n in
  let ds := digit_chars n in
  string_of_list_ascii
    (s ++ replicate (w - length s - length ds) "0"%char ++ ds).

(** *** [int(s)] on a string *)

Fixpoint parse_digits (acc : Z) (cs : list ascii) : option Z :=
  match cs with
  | [] => Some acc
  | c :: cs' =>
      match digit_of_ascii c with
      | Some d => parse_digits (10 * acc + d) cs'
      | None => None
      end
  end.

Definition parse_unsigned (cs : list ascii) : py_result Z :=
  match cs with
  | [] => Raise ValueError
  | _ => match parse_digits 0 cs with
         | Some v => Ok v
         | None => Raise ValueError
         end
  end.

(** [int(s)] for an optional sign followed by ASCII digits.  Python also
    accepts surrounding white space and single underscores between digits;
    no string built by this program has either. *)
Definition int_of_str (s : string) : py_result Z :=
  match list_ascii_of_string s with
  | [] => Raise ValueError
  | c :: cs =>
      if decide (c = "-"%char) then v ← parse_unsigned cs; Ok (- v)
      else if decide (c = "+"%char) then parse_unsigned cs
      else parse_unsigned (c :: cs)
  end.

(** *** Slices *)

(** [s[:j]] for a literal [j >= 0]. *)
Definition slice_to (j : nat) (s : string) : string :=
  string_of_list_ascii (take j (list_ascii_of_string s)).

(** [s[i:-j]] for literals [i, j >= 0]: from index [i] up to [len(s) - j],
    empty when the bounds cross. *)
Definition slice_mid (i j : nat) (s : string) : string :=
  let cs := list_ascii_of_string s in
  string_of_list_ascii (take (length cs - j - i) (drop i cs)).

(** [s[-j:]] for a literal [j > 0]: the last [j] characters, the whole
    string when it is shorter. *)
Definition slice_last (j : nat) (s : string) : string :=
  let cs := list_ascii_of_string s in
  string_of_list_ascii (drop (length cs - j) cs).

(** [divmod(a, b)]: floor division, the remainder has the sign of [b]. *)
Definition divmod (a b : Z) : Z * Z := (a `div` b, a `mod` b).

End Py.

Import Py.

(** ** The formatters of [filter.py] *)

Definition format_time (centiseconds : Z) : string :=
  let '(minutes, centiseconds) := divmod centiseconds 6000 in
  let '(seconds, fractional) := divmod centiseconds 100 in
  if 0 <? minutes
  then str minutes +:+ ":" +:+ format_0d 2 seconds +:+ "." +:+ format_0d 2 fractional
  else str seconds +:+ "." +:+ format_0d 2 fractional.

Definition format_mbf_result (best : Z) : py_result string :=
  let best_str := format_0d 8 best in
  total_points ← int_of_str (slice_to 2 best_str);
  total_time_seconds ← int_of_str (slice_mid 2 2 best_str);
  missed_cubes ← int_of_str (slice_last 2 best_str);
  let solved_cubes := 99 - total_points + missed_cubes in
  let attempted_cubes := solved_cubes + missed_cubes in
  let '(minutes, seconds) := divmod total_time_seconds 60 in
  let formatted_time := str minutes +:+ ":" +:+ format_0d 2 seconds in
  Ok (str solved_cubes +:+ "/" +:+ str attempted_cubes +:+ " " +:+ formatted_time).

Definition format_best_result (event_id : string) (best : Z) : py_result string :=
  if decide (event_id = "333mbf") then format_mbf_result best
  else if decide (event_id = "333fm") then
    Ok (if best <? 100 then str best else str best)
  else Ok (format_time best).

Definition format_event_name (event_id : string) : string :=
  let EVENT_DISPLAY_NAMES : gmap string string :=
    list_to_map
      [ ("333", "3x3"); ("222", "2x2"); ("444", "4x4"); ("555", "5x5");
        ("666", "6x6"); ("777", "7x7"); ("333bf", "3x3 Blindfolded");
        ("333fm", "3x3 Fewest Moves"); ("333oh", "3x3 One-Handed");
        ("clock", "Clock"); ("minx", "Megaminx"); ("pyram", "Pyraminx");
        ("skewb", "Skewb"); ("sq1", "Square-1"); ("444bf", "4x4 Blindfolded");
        ("555bf", "5x5 Blindfolded"); ("333mbf", "3x3 Multi-Blind");
        ("333mbo", "3x3 Multi-Blind Old Style"); ("magic", "Magic");
        ("mmagic", "Master Magic"); ("333ft", "3x3 With Feet") ] in
  default event_id (EVENT_DISPLAY_NAMES !! event_id).

(** ** Floating-point cells

    [countryRank] is read as [float32].  The program only compares such
    values, takes their maximum and truncates them, so a value is modelled
    by what it denotes: not-a-number, an infinity, or a rational.
    [float_of_int n] writes the cell that holds the whole number [n]; the
    conversion of an integer rank by the comparison of
    [get_person_by_rank] rounds and can overflow, it is [float32_of_int]. *)

Inductive float : Type :=
| NaN
| NegInf
| Finite (q : Qc)
| PosInf.

#[export] Instance float_eq_dec : EqDecision float.
Proof. solve_decision. Defined.

(** [a == b]: not-a-number equals nothing, itself included. *)
Definition float_eqb (a b : float) : bool :=
  match a, b with
  | NegInf, NegInf | PosInf, PosInf => true
  | Finite p, Finite q => bool_decide (p = q)
  | _, _ => false
  end.

(** [a < b]: false as soon as one side is not-a-number. *)
Definition float_ltb (a b : float) : bool :=
  match a, b with
  | NaN, _ | _, NaN => false
  | NegInf, NegInf => false
  | NegInf, _ => true
  | Finite _, NegInf => false
  | Finite p, Finite q => bool_decide (p < q)%Qc
  | Finite _, PosInf => true
  | PosInf, _ => false
  end.

(** The cell that holds the whole number [n]. *)
Definition float_of_int (n : Z) : float := Finite (Q2Qc (inject_Z n)).

(** The integer nearest to [n] that has at most [p] significant bits, a tie
    going to the one whose last kept bit is zero. *)
Definition round_to_bits (p : Z) (n : Z) : Z :=
  let a := Z.abs n in
  let e := Z.log2 a + 1 - p in
  if e <=? 0 then n
  else
    let q := a `div` 2 ^ e in
    let r := a `mod` 2 ^ e in
    let half := 2 ^ (e - 1) in
    let q' := if r <? half then q
              else if half <? r then q + 1
              else if Z.even q then q else q + 1 in
    Z.sgn n * (q' * 2 ^ e).

(** [float(n)] for a Python integer: the nearest double, and
    [OverflowError] when that is beyond the doubles.  The double is an
    integer, it is given as such. *)
Definition double_of_int (n : Z) : py_result Z :=
  let d := round_to_bits 53 n in
  if 2 ^ 1024 <=? Z.abs d then Raise OverflowError else Ok d.

(** The cast of a whole double to [float32]: the nearest value, an infinity
    beyond the largest one. *)
Definition float32_of_double (d : Z) : float :=
  let f := round_to_bits 24 d in
  if 2 ^ 128 <=? Z.abs f then (if 0 <? f then PosInf else NegInf)
  else float_of_int f.

(** What NumPy makes of a Python integer compared with a [float32] column:
    the integer becomes a Python float, which is cast to [float32]. *)
Definition float32_of_int (n : Z) : py_result float :=
  d ← double_of_int n; Ok (float32_of_double d).

(** [int(x)]: truncation toward zero; not-a-number and the infinities have
    no integer value. *)
Definition int_of_float (x : float) : py_result Z :=
  match x with
  | NaN => Raise ValueError
  | NegInf | PosInf => Raise OverflowError
  | Finite q => Ok (Qnum q ÷ Z.pos (Qden q))
  end.

Definition format_rank (rank : float) : py_result string :=
  rank ← int_of_float rank;
  if decide (rank = 1) then Ok (str rank +:+ "st")
  else if decide (rank = 2) then Ok (str rank +:+ "nd")
  else if decide (rank = 3) then Ok (str rank +:+ "rd")
  else Ok (str rank +:+ "th").

(** ** Data frames

    A data frame is the list of its rows, in index order; a row is a record
    of the columns [load_data] keeps.  The identifier columns are pandas
    strings and [best] is an [int32] column, read here as an integer; a
    missing identifier is outside the model. *)

Module Results.
Record row : Type := Row {
  personId : string;
  eventId : string;
  personCountryId : string;
  best : Z;
  personName : string
}.
End Results.

Module Ranks.
Record row : Type := Row {
  personId : string;
  eventId : string;
  countryRank : float;
  best : Z
}.
End Ranks.

Module Merged.
Record row : Type := Row {
  personId : string;
  eventId : string;
  personCountryId : string;
  best : Z;
  personName : string;
  countryRank : float
}.
End Merged.

Definition join_key : Type := string * string * Z.

Definition results_key (r : Results.row) : join_key :=
  (Results.personId r, Results.eventId r, Results.best r).

Definition ranks_key (k : Ranks.row) : join_key :=
  (Ranks.personId k, Ranks.eventId k, Ranks.best k).

Definition merged_key (u : Merged.row) : join_key :=
  (Merged.personId u, Merged.eventId u, Merged.best u).

(** The row [pd.merge] builds from a matching pair: the columns of the left
    frame, then the columns of the right frame that are not keys. *)
Definition join_rows (r : Results.row) (k : Ranks.row) : Merged.row :=
  Merged.Row (Results.personId r) (Results.eventId r) (Results.personCountryId r)
    (Results.best r) (Results.personName r) (Ranks.countryRank k).

(** [pd.merge(results_df, ranks_df, on=[personId, eventId, best],
    how="inner")]: one row for every pair of a left row and a right row with
    equal keys.  Rows come in the order of the left frame, and for one left
    row in the order of the right frame; no statement below depends on that
    order. *)
Definition merge_data (results_df : list Results.row) (ranks_df : list Ranks.row)
  : list Merged.row :=
  r ← results_df;
  join_rows r <$> filter (λ k, ranks_key k = results_key r) ranks_df.

(** [Series.max()]: the largest value that is not not-a-number, and
    not-a-number when there is none. *)
Definition float_max (a b : float) : float := if float_ltb a b then b else a.

Definition series_max (col : list float) : float :=
  match filter (λ x, x ≠ NaN) col with
  | [] => NaN
  | x :: xs => foldl float_max x xs
  end.

(** The third argument of [get_person_by_rank]: the token ["lowest"] or the
    integer the caller parsed. *)
Inductive rank_spec : Type :=
| lowest
| rank (n : Z).

(** [merged_df] is a global of the script; it is a parameter here.  An
    integer [rank_number] is converted by the comparison with the column,
    whatever the rows; the conversion is written where the rank is
    resolved. *)
Definition get_person_by_rank (merged_df : list Merged.row)
    (event_id region : string) (rank_number : rank_spec)
  : py_result (option Merged.row) :=
  let filtered_df :=
    filter (λ row, Merged.eventId row = event_id ∧ Merged.personCountryId row = region)
      merged_df in
  rank_number ←
    match rank_number with
    | lowest => Ok (series_max (Merged.countryRank <$> filtered_df))
    | rank n => float32_of_int n
    end;
  let person_at_rank :=
    take 1 (filter (λ row, float_eqb (Merged.countryRank row) rank_number) filtered_df) in
  Ok (match person_at_rank with
      | [] => None
      | row :: _ => Some row
      end).

(** ** The drop-down lists and the search handler

    The rest of the script, as far as it computes: the two lists the
    drop-downs offer, the way the chosen display name is turned back into an
    event code, and what the search button writes to the page.  Fetching the
    files and the widgets themselves are input and output.  The text typed
    for the rank is a Python [str]; its characters are read as code points
    below 256. *)

(** [df.empty]: the frame has no row. *)
Definition empty {A} (df : list A) : bool :=
  match df with
  | [] => true
  | _ :: _ => false
  end.

(** From the loaded tables to the unified one: the script stops
    ([st.error], [st.stop()]) when a table is empty, and joins them
    otherwise. *)
Definition startup (results_df : list Results.row) (ranks_df : list Ranks.row)
  : option (list Merged.row) :=
  if empty results_df || empty ranks_df then None
  else Some (merge_data results_df ranks_df).

(** [Series.unique()]: the distinct values, in order of first appearance. *)
Fixpoint unique {A} `{EqDecision A} (col : list A) : list A :=
  match col with
  | [] => []
  | x :: col' => x :: filter (λ y, y ≠ x) (unique col')
  end.

Definition available_events (merged_df : list Merged.row) : list string :=
  unique (Merged.eventId <$> merged_df).

Definition available_regions (merged_df : list Merged.row) : list string :=
  unique (Merged.personCountryId <$> merged_df).

(** A Python [dict] with string keys, as the list of its items in insertion
    order; [dict_set] is [d[k] = v]: a key already present keeps its place. *)
Fixpoint dict_set (d : list (string * string)) (k v : string) : list (string * string) :=
  match d with
  | [] => [(k, v)]
  | (k', v') :: d' =>
      if decide (k' = k) then (k, v) :: d' else (k', v') :: dict_set d' k v
  end.

(** [{eid: format_event_name(eid) for eid in available_events}] *)
Definition formatted_events (available_events : list string) : list (string * string) :=
  foldl (λ d eid, dict_set d eid (format_event_name eid)) [] available_events.

(** What indexing a list can raise. *)
Inductive index_exn : Set :=
| NotInList     (* [ValueError] of [list.index] *)
| OutOfRange.   (* [IndexError] of [l[i]] *)

Inductive index_result (A : Type) : Type :=
| Found (a : A)
| NotFound (e : index_exn).
Arguments Found {A} a.
Arguments NotFound {A} e.

(** [l.index(x)]: the position of the first item equal to [x]. *)
Definition list_index (x : string) (l : list string) : index_result nat :=
  match list_find (λ y, y = x) l with
  | Some (i, _) => Found i
  | None => NotFound NotInList
  end.

(** [l[i]] for [i >= 0]. *)
Definition list_item (l : list string) (i : nat) : index_result string :=
  match l !! i with
  | Some y => Found y
  | None => NotFound OutOfRange
  end.

(** [list(formatted_events.keys())[list(formatted_events.values())
    .index(event_id_display)]], with [formatted_events] built from the
    offered events. *)
Definition selected_event_id (available_events : list string)
    (event_id_display : string) : index_result string :=
  let formatted_events := formatted_events available_events in
  match list_index event_id_display (formatted_events.*2) with
  | Found i => list_item (formatted_events.*1) i
  | NotFound e => NotFound e
  end.

(** What the handler puts on the page. *)
Inductive element : Type :=
| Subheader (s : string)   (* [st.subheader] *)
| Write (s : string)       (* [st.write] *)
| Warning (s : string)     (* [st.warning] *)
| ErrorBox (e : exn).      (* [st.error] and [st.text] of the [except] branch *)

(** Statements that write to the page and may raise: the page so far goes
    in, the page and a result or an exception come out. *)
Definition ui (A : Type) : Type := list element → list element * py_result A.

#[export] Instance ui_ret : MRet ui := λ A a page, (page, Ok a).
#[export] Instance ui_bind : MBind ui := λ A B k m page,
  match m page with
  | (page', Ok a) => k a page'
  | (page', Raise e) => (page', Raise e)
  end.

Definition emit (e : element) : ui () := λ page, (page ++ [e], Ok ()).

Definition eval {A} (m : py_result A) : ui A := λ page, (page, m).

(** [try: body  except Exception as e: st.error(...); st.text(...)] on an
    empty page. *)
Definition try_except (body : ui ()) : list element :=
  match body [] with
  | (page, Ok _) => page
  | (page, Raise e) => page ++ [ErrorBox e]
  end.

(** [c.lower()] for a code point below 256: the capital letters of ASCII
    and of Latin-1 move 32 places up. *)
Definition lower_char (c : ascii) : ascii :=
  let n := N_of_ascii c in
  if ((65 <=? n) && (n <=? 90) || (192 <=? n) && (n <=? 222) && negb (n =? 215))%N
  then ascii_of_N (n + 32) else c.

(** [s.lower()] *)
Definition lower (s : string) : string :=
  string_of_list_ascii (lower_char <$> list_ascii_of_string s).

(** The white space [int] skips around a number: the six blanks of ASCII,
    and the next-line and no-break-space characters. *)
Definition is_space (c : ascii) : bool :=
  let n := N_of_ascii c in
  ((9 <=? n) && (n <=? 13) || (n =? 32) || (n =? 133) || (n =? 160))%N.

Fixpoint lstrip (cs : list ascii) : list ascii :=
  match cs with
  | [] => []
  | c :: cs' => if is_space c then lstrip cs' else cs
  end.

(** The digits of a number written with single underscores between digits;
    [after_digit] tells whether an underscore may come next.  The scan stops
    at the first character that is neither, and gives what follows. *)
Fixpoint read_digits (after_digit : bool) (cs : list ascii)
  : option (list Z * list ascii) :=
  match cs with
  | [] => if after_digit then Some ([], []) else None
  | c :: cs' =>
      match digit_of_ascii c with
      | Some d => prod_map (cons d) id <$> read_digits true cs'
      | None =>
          if decide (c = "_"%char) then
            if after_digit then read_digits false cs' else None
          else if after_digit then Some ([], cs) else None
      end
  end.

(** [int(s)] on any text: white space, an optional sign, digits with single
    underscores between them, white space; a number of more than 4300
    digits is refused.  Every failure is a [ValueError]. *)
Definition int_of_text (s : string) : py_result Z :=
  let cs := lstrip (list_ascii_of_string s) in
  let '(negative, cs) :=
    match cs with
    | c :: cs' =>
        if decide (c = "-"%char) then (true, cs')
        else if decide (c = "+"%char) then (false, cs')
        else (false, cs)
    | [] => (false, [])
    end in
  match read_digits false cs with
  | Some (ds, rest) =>
      if forallb is_space rest && (length ds <=? 4300)%nat
      then Ok (if negative then - digits_value ds else digits_value ds)
      else Raise ValueError
  | None => Raise ValueError
  end.

(** The first lines of the [try] block: the text is the word "lowest", in
    any case, or must read as an integer. *)
Definition parse_rank (rank_number : string) : py_result rank_spec :=
  if decide (lower rank_number ≠ "lowest") then
    rank_number ← int_of_text rank_number; Ok (rank rank_number)
  else Ok lowest.

(** The lines of the [try] block that follow the call of
    [get_person_by_rank]. *)
Definition show (person_info : option Merged.row) : ui () :=
  match person_info with
  | Some person_info =>
      emit (Subheader ("Rank Info for " +:+ Merged.personName person_info));;
      emit (Write ("**Name**: " +:+ Merged.personName person_info));;
      event ← eval (Ok (format_event_name (Merged.eventId person_info)));
      emit (Write ("**Event**: " +:+ event));;
      emit (Write ("**Country**: " +:+ Merged.personCountryId person_info));;
      rank_text ← eval (format_rank (Merged.countryRank person_info));
      emit (Write ("**Rank**: " +:+ rank_text));;
      best_text ← eval (format_best_result (Merged.eventId person_info)
                          (Merged.best person_info));
      emit (Write ("**Best Result**: " +:+ best_text))
  | None => emit (Warning "No person found with the specified criteria.")
  end.

(** The body of [if st.sidebar.button("Search")]: [rank_number] is the text
    of the input box. *)
Definition search (merged_df : list Merged.row) (event_id region : string)
    (rank_number : string) : list element :=
  try_except (
    rank_number ← eval (parse_rank rank_number);
    person_info ← eval (get_person_by_rank merged_df event_id region rank_number);
    show person_info).

(** ** Vocabulary of the specification

    The definitions below are not functions of [filter.py]; they name what
    the statements about it speak of. *)

(** The two characters of a number between 0 and 99 written with [02d]. *)
Definition two_digits (x : Z) : string :=
  String (ascii_of_digit (x `div` 10)) (String (ascii_of_digit (x `mod` 10)) "").

(** The text [format_mbf_result] builds from the three decoded numbers. *)
Definition mbf_text (points time missed : Z) : string :=
  let solved := 99 - points + missed in
  let attempted := solved + missed in
  str solved +:+ "/" +:+ str attempted +:+ " " +:+
  str (time `div` 60) +:+ ":" +:+ format_0d 2 (time `mod` 60).

(** [n] is [q] with its fractional part cut off, toward zero. *)
Definition is_truncation (q : Q) (n : Z) : Prop :=
  ((0 <= q)%Q → (inject_Z n <= q)%Q ∧ (q < inject_Z (n + 1))%Q) ∧
  ((q <= 0)%Q → (inject_Z (n - 1) < q)%Q ∧ (q <= inject_Z n)%Q).

(** [cs] cut at the first occurrence of [sep]. *)
Fixpoint split_at (sep : ascii) (cs : list ascii) : option (list ascii * list ascii) :=
  match cs with
  | [] => None
  | c :: cs' =>
      if decide (c = sep) then Some ([], cs')
      else prod_map (cons c) id <$> split_at sep cs'
  end.

(** The inverse parse of the round-trip property of [format_time], written
    from the specification: the text before a colon, when there is one, is
    the minutes (zero otherwise); what follows is seconds, a point, and the
    fractional part. *)
Definition parse_time (s : string) : py_result (Z * Z * Z) :=
  let cs := list_ascii_of_string s in
  let '(minutes_part, rest) :=
    match split_at ":" cs with
    | Some (m, r) => (Some m, r)
    | None => (None, cs)
    end in
  minutes ← match minutes_part with
            | Some m => int_of_str (string_of_list_ascii m)
            | None => Ok 0
            end;
  match split_at "." rest with
  | None => Raise ValueError
  | Some (sec, frac) =>
      seconds ← int_of_str (string_of_list_ascii sec);
      fractional ← int_of_str (string_of_list_ascii frac);
      Ok (minutes, seconds, fractional)
  end.

(** The rows of the unified table for one event and one country. *)
Definition filtered_subset (merged_df : list Merged.row) (event_id region : string)
  : list Merged.row :=
  filter (λ row, Merged.eventId row = event_id ∧ Merged.personCountryId row = region)
    merged_df.

(** The rank value a rank specification stands for in a subset, when the
    conversion of an integer does not raise. *)
Definition resolved_rank (subset : list Merged.row) (rank_number : rank_spec)
  : py_result float :=
  match rank_number with
  | lowest => Ok (series_max (Merged.countryRank <$> subset))
  | rank n => float32_of_int n
  end.

(** A row of the event [event_id] and the country [region] whose rank
    equals [r]. *)
Definition at_rank (event_id region : string) (r : float) (row : Merged.row) : Prop :=
  (Merged.eventId row = event_id ∧ Merged.personCountryId row = region) ∧
  float_eqb (Merged.countryRank row) r.

#[export] Instance at_rank_dec event_id region r row :
  Decision (at_rank event_id region r row).
Proof. unfold at_rank. apply _. Defined.

(** [m] is the greatest number of the column [col]. *)
Definition is_max_of (col : list float) (m : float) : Prop :=
  m ≠ NaN ∧ m ∈ col ∧ ∀ x, x ∈ col → x ≠ NaN → float_ltb m x = false.

(** The table of [format_event_name], as the list of its items. *)
Definition event_table : list (string * string) :=
  [ ("333", "3x3"); ("222", "2x2"); ("444", "4x4"); ("555", "5x5");
    ("666", "6x6"); ("777", "7x7"); ("333bf", "3x3 Blindfolded");
    ("333fm", "3x3 Fewest Moves"); ("333oh", "3x3 One-Handed");
    ("clock", "Clock"); ("minx", "Megaminx"); ("pyram", "Pyraminx");
    ("skewb", "Skewb"); ("sq1", "Square-1"); ("444bf", "4x4 Blindfolded");
    ("555bf", "5x5 Blindfolded"); ("333mbf", "3x3 Multi-Blind");
    ("333mbo", "3x3 Multi-Blind Old Style"); ("magic", "Magic");
    ("mmagic", "Master Magic"); ("333ft", "3x3 With Feet") ].

(** What [search] has written when it comes to format the rank. *)
Definition page_head (person : Merged.row) : list element :=
  [ Subheader ("Rank Info for " +:+ Merged.personName person);
    Write ("**Name**: " +:+ Merged.personName person);
    Write ("**Event**: " +:+ format_event_name (Merged.eventId person));
    Write ("**Country**: " +:+ Merged.personCountryId person) ].

(** The suffix [format_rank] gives to the integer [n]. *)
Definition ordinal_suffix (n : Z) : string :=
  if decide (n = 1) then "st"
  else if decide (n = 2) then "nd"
  else if decide (n = 3) then "rd"
  else "th".

(** Sample rows. *)
Module Sample.
Definition alice_result : Results.row := Results.Row "2003ALIC01" "333" "US" 610 "Alice".
Definition alice_rank : Ranks.row := Ranks.Row "2003ALIC01" "333" (float_of_int 1) 610.
Definition bob_rank : Ranks.row := Ranks.Row "2005BOBB01" "333" (float_of_int 2) 710.
Definition alice : Merged.row :=
  Merged.Row "2003ALIC01" "333" "US" 610 "Alice" (float_of_int 1).
Definition bob : Merged.row :=
  Merged.Row "2005BOBB01" "333" "US" 710 "Bob" (float_of_int 2).
Definition carol : Merged.row :=
  Merged.Row "2007CARO01" "333" "US" 710 "Carol" (float_of_int 2).
Definition unranked : Merged.row :=
  Merged.Row "2009DAVE01" "333" "US" 900 "Dave" NaN.
Definition alice_moved : Results.row :=
  Results.Row "2003ALIC01" "333" "CA" 610 "Alice".
Definition erin : Merged.row :=
  Merged.Row "2010ERIN01" "444" "US" 3120 "Erin" (float_of_int 1).
Definition frank : Merged.row :=
  Merged.Row "2011FRAN01" "333" "US" 800 "Frank" PosInf.
Definition grace : Merged.row :=
  Merged.Row "2012GRAC01" "333" "US" 850 "Grace" (float_of_int 16777216).
End Sample.

(** * Proofs *)

(** One step of a computation in [py_result]. *)
Ltac py_step := cbn [mbind py_result_bind bind].

(** Case analysis on a decimal digit [d], from [H : is_digit d]. *)
Ltac digit_cases H :=
  let Hc := fresh "Hc" in
  match type of H with
  | is_digit ?d =>
      assert (d = 0 ∨ d = 1 ∨ d = 2 ∨ d = 3 ∨ d = 4 ∨
              d = 5 ∨ d = 6 ∨ d = 7 ∨ d = 8 ∨ d = 9) as Hc
        by (unfold is_digit in H; lia);
      repeat (destruct Hc as [->|Hc]); [..|subst d]
  end.

(** ** Decimal digits *)

Lemma digits_aux_S fuel n acc :
  digits_aux (S fuel) n acc =
  if n <? 10 then n :: acc else digits_aux fuel (n `div` 10) (n `mod` 10 :: acc).
Proof. reflexivity. Qed.

Lemma digits_aux_app fuel : ∀ n acc,
  digits_aux fuel n acc = digits_aux fuel n [] ++ acc.
Proof.
  induction fuel as [|fuel IH]; intros n acc; simpl; [done|].
  destruct (n <? 10); [done|].
  rewrite (IH _ (_ :: acc)), (IH _ [_]). by rewrite <- app_assoc.
Qed.

Lemma digits_value_snoc ds d : digits_value (ds ++ [d]) = 10 * digits_value ds + d.
Proof. unfold digits_value. by rewrite foldl_app. Qed.

Lemma digits_single n :
  0 ≤ n → n < 10 →
  let ds := [n] in
  digits_value ds = n ∧ Forall is_digit ds ∧ (0 < length ds)%nat ∧
  n < 10 ^ Z.of_nat (length ds) ∧
  (length ds = 1%nat ∨ 10 ^ (Z.of_nat (length ds) - 1) ≤ n).
Proof.
  intros H0 H10. cbn. split_and!.
  - unfold digits_value. cbn. lia.
  - repeat constructor; lia.
  - lia.
  - change (10 ^ 1) with 10. lia.
  - by left.
Qed.

Lemma digits_aux_spec fuel : ∀ n,
  0 ≤ n < 10 * 10 ^ Z.of_nat fuel →
  let ds := digits_aux (S fuel) n [] in
  digits_value ds = n ∧ Forall is_digit ds ∧ (0 < length ds)%nat ∧
  n < 10 ^ Z.of_nat (length ds) ∧
  (length ds = 1%nat ∨ 10 ^ (Z.of_nat (length ds) - 1) ≤ n).
Proof.
  induction fuel as [|fuel IH]; intros n Hn; cbv zeta; rewrite digits_aux_S.
  - change (10 ^ Z.of_nat 0) with 1 in Hn.
    destruct (Z.ltb_spec n 10) as [Hlt|Hge]; [|exfalso; clear -Hn Hge; lia].
    apply digits_single; lia.
  - destruct (Z.ltb_spec n 10) as [Hlt|Hge].
    { apply digits_single; lia. }
    rewrite digits_aux_app.
    assert (Hq : 0 ≤ n `div` 10 < 10 * 10 ^ Z.of_nat fuel).
    { split; [apply Z.div_pos; lia|].
      apply Z.div_lt_upper_bound; [lia|].
      rewrite Nat2Z.inj_succ, Z.pow_succ_r in Hn by lia. lia. }
    destruct (IH _ Hq) as (Hv & Hd & Hl & Hub & Hlb).
    set (ds := digits_aux (S fuel) (n `div` 10) []) in *.
    rewrite digits_value_snoc, length_app, Hv. simpl length.
    assert (Hm := Z.mod_pos_bound n 10 ltac:(lia)).
    assert (Hdm := Z.div_mod n 10 ltac:(lia)).
    replace (Z.of_nat (length ds + 1)) with (Z.succ (Z.of_nat (length ds))) by lia.
    rewrite Z.pow_succ_r by lia.
    replace (Z.succ (Z.of_nat (length ds)) - 1) with (Z.of_nat (length ds)) by lia.
    repeat split.
    + lia.
    + apply Forall_app. split; [done|]. constructor; [unfold is_digit; lia|constructor].
    + lia.
    + lia.
    + right. destruct Hlb as [H1|Hlb].
      * rewrite H1. change (10 ^ Z.of_nat 1) with 10. lia.
      * replace (Z.of_nat (length ds)) with (Z.succ (Z.of_nat (length ds) - 1)) by lia.
        rewrite Z.pow_succ_r by lia. lia.
Qed.

Lemma decimal_digits_spec n :
  0 ≤ n →
  let ds := decimal_digits n in
  digits_value ds = n ∧ Forall is_digit ds ∧ (0 < length ds)%nat ∧
  n < 10 ^ Z.of_nat (length ds) ∧
  (length ds = 1%nat ∨ 10 ^ (Z.of_nat (length ds) - 1) ≤ n).
Proof.
  intros Hn. apply digits_aux_spec. split; [done|].
  rewrite Z2Nat.id by apply Z.log2_nonneg.
  destruct (decide (n = 0)) as [->|]; [done|].
  pose proof (Z.log2_spec n ltac:(lia)) as [_ H].
  pose proof (Z.log2_nonneg n) as Hl.
  rewrite Z.pow_succ_r in H by done.
  pose proof (Z.pow_le_mono_l 2 10 (Z.log2 n) ltac:(lia)). lia.
Qed.

Lemma digit_ascii_roundtrip d : is_digit d → digit_of_ascii (ascii_of_digit d) = Some d.
Proof.
  intros Hd. by digit_cases Hd.
Qed.

Lemma parse_digits_chars ds : ∀ acc,
  Forall is_digit ds →
  parse_digits acc (ascii_of_digit <$> ds) = Some (foldl (λ a d, 10 * a + d) acc ds).
Proof.
  induction ds as [|d ds IH]; intros acc Hds; [done|].
  inversion_clear Hds as [|?? Hd Hds']. simpl.
  rewrite digit_ascii_roundtrip by done. by apply IH.
Qed.

Lemma parse_unsigned_chars ds :
  Forall is_digit ds → ds ≠ [] →
  parse_unsigned (ascii_of_digit <$> ds) = Ok (digits_value ds).
Proof.
  intros Hds Hne. unfold parse_unsigned.
  rewrite parse_digits_chars by done.
  destruct ds; [done|]. reflexivity.
Qed.

(** *** Strings as character lists *)

Lemma chars_of_chars cs : list_ascii_of_string (string_of_list_ascii cs) = cs.
Proof. apply list_ascii_of_string_of_list_ascii. Qed.

Lemma chars_app s1 s2 :
  list_ascii_of_string (s1 +:+ s2) = list_ascii_of_string s1 ++ list_ascii_of_string s2.
Proof. induction s1 as [|c s1 IH]; simpl; [done|]. by rewrite IH. Qed.

(** *** Values of digit lists *)

Lemma foldl_digits_acc ds : ∀ acc,
  foldl (λ a d, 10 * a + d) acc ds = acc * 10 ^ Z.of_nat (length ds) + digits_value ds.
Proof.
  unfold digits_value.
  induction ds as [|d ds IH]; intros acc; simpl foldl; simpl length.
  - change (10 ^ Z.of_nat 0) with 1. lia.
  - rewrite (IH (10 * acc + d)), (IH (10 * 0 + d)).
    rewrite Nat2Z.inj_succ, Z.pow_succ_r by lia. lia.
Qed.

Lemma digits_value_app ds1 ds2 :
  digits_value (ds1 ++ ds2) = digits_value ds1 * 10 ^ Z.of_nat (length ds2) + digits_value ds2.
Proof. unfold digits_value at 1. rewrite foldl_app. apply foldl_digits_acc. Qed.

Lemma digits_value_bound ds :
  Forall is_digit ds → 0 ≤ digits_value ds < 10 ^ Z.of_nat (length ds).
Proof.
  induction ds as [|d ds IH] using rev_ind; intros Hds.
  - by compute.
  - apply Forall_app in Hds as [Hds Hd]. inversion_clear Hd as [|?? Hd' _].
    destruct (IH Hds) as [IH0 IH1]. unfold is_digit in Hd'.
    rewrite digits_value_snoc, length_app. simpl length.
    replace (Z.of_nat (length ds + 1)) with (Z.succ (Z.of_nat (length ds))) by lia.
    rewrite Z.pow_succ_r by lia. lia.
Qed.

Lemma digits_value_zeros n ds :
  digits_value (replicate n 0 ++ ds) = digits_value ds.
Proof.
  rewrite digits_value_app.
  assert (digits_value (replicate n 0) = 0) as ->; [|lia].
  induction n as [|n IH]; [done|].
  change (replicate (S n) 0) with ([0] ++ replicate n 0).
  rewrite digits_value_app, IH. unfold digits_value. simpl. lia.
Qed.

Lemma decimal_digits_small n : 0 ≤ n < 10 → decimal_digits n = [n].
Proof.
  intros Hn. unfold decimal_digits. rewrite digits_aux_S.
  destruct (Z.ltb_spec n 10); [done|lia].
Qed.

Lemma decimal_digits_two n :
  10 ≤ n < 100 → decimal_digits n = [n `div` 10; n `mod` 10].
Proof.
  intros Hn. unfold decimal_digits. rewrite digits_aux_S.
  destruct (Z.ltb_spec n 10); [lia|].
  assert (1 ≤ Z.log2 n) by (apply Z.log2_le_pow2; simpl; lia).
  destruct (Z.to_nat (Z.log2 n)) as [|f] eqn:Hf; [lia|].
  rewrite digits_aux_S.
  destruct (Z.ltb_spec (n `div` 10) 10) as [|Hge]; [done|].
  assert (n `div` 10 < 10) by (apply Z.div_lt_upper_bound; lia). lia.
Qed.

(** *** [str], [format_0d] and [int_of_str] on digit strings *)

Lemma ascii_of_digit_not_sign d :
  is_digit d → ascii_of_digit d ≠ "-"%char ∧ ascii_of_digit d ≠ "+"%char.
Proof.
  intros Hd. by digit_cases Hd.
Qed.

Lemma ascii_of_digit_not_punct d :
  is_digit d → ascii_of_digit d ≠ ":"%char ∧ ascii_of_digit d ≠ "."%char.
Proof.
  intros Hd. by digit_cases Hd.
Qed.

Lemma int_of_str_digits ds :
  Forall is_digit ds → ds ≠ [] →
  int_of_str (string_of_list_ascii (ascii_of_digit <$> ds)) = Ok (digits_value ds).
Proof.
  intros Hds Hne. unfold int_of_str. rewrite chars_of_chars.
  destruct ds as [|d ds]; [done|].
  pose proof (parse_unsigned_chars (d :: ds) Hds Hne) as Hp.
  inversion_clear Hds as [|?? Hd _].
  destruct (ascii_of_digit_not_sign d Hd) as [Hm Hp'].
  rewrite fmap_cons in *.
  rewrite decide_False by done. by rewrite decide_False by done.
Qed.

Lemma sign_chars_nonneg n : 0 ≤ n → sign_chars n = [].
Proof. intros Hn. unfold sign_chars. by destruct (Z.ltb_spec n 0); [lia|]. Qed.

Lemma digit_chars_nonneg n : 0 ≤ n → digit_chars n = ascii_of_digit <$> decimal_digits n.
Proof. intros Hn. unfold digit_chars. by rewrite Z.abs_eq. Qed.

Lemma str_nonneg n :
  0 ≤ n → str n = string_of_list_ascii (ascii_of_digit <$> decimal_digits n).
Proof. intros Hn. unfold str. by rewrite sign_chars_nonneg, digit_chars_nonneg. Qed.

Lemma int_of_str_str n : 0 ≤ n → int_of_str (str n) = Ok n.
Proof.
  intros Hn. rewrite str_nonneg by done.
  destruct (decimal_digits_spec n Hn) as (Hv & Hd & Hl & _).
  rewrite int_of_str_digits, Hv; [done..|].
  intros E. rewrite E in Hl. simpl in Hl. lia.
Qed.

Lemma two_digits_chars x :
  two_digits x = string_of_list_ascii (ascii_of_digit <$> [x `div` 10; x `mod` 10]).
Proof. reflexivity. Qed.

Lemma format_0d_2 x : 0 ≤ x < 100 → format_0d 2 x = two_digits x.
Proof.
  intros Hx. unfold format_0d. cbv zeta.
  rewrite sign_chars_nonneg, digit_chars_nonneg by lia.
  destruct (decide (x < 10)) as [Hlt|Hge].
  - rewrite decimal_digits_small by lia. unfold two_digits.
    rewrite Z.div_small, Z.mod_small by lia. reflexivity.
  - rewrite decimal_digits_two by lia. reflexivity.
Qed.

Lemma int_of_str_two_digits x : 0 ≤ x < 100 → int_of_str (two_digits x) = Ok x.
Proof.
  intros Hx. rewrite two_digits_chars, int_of_str_digits.
  - unfold digits_value. cbn [foldl]. f_equal.
    pose proof (Z.div_mod x 10 ltac:(lia)). lia.
  - pose proof (Z.div_mod x 10 ltac:(lia)).
    pose proof (Z.mod_pos_bound x 10 ltac:(lia)).
    apply Forall_cons_2; [unfold is_digit; lia|].
    apply Forall_cons_2; [unfold is_digit; lia|]. apply Forall_nil_2.
  - done.
Qed.

(** ** The formatters *)

Lemma divmod_6000_bounds c :
  let r := c `mod` 6000 in
  0 ≤ r `div` 100 < 100 ∧ 0 ≤ r `mod` 100 < 100 ∧ r `mod` 100 = c `mod` 100.
Proof.
  intros r. subst r.
  pose proof (Z.mod_pos_bound c 6000 ltac:(lia)).
  pose proof (Z.div_mod (c `mod` 6000) 100 ltac:(lia)).
  pose proof (Z.mod_pos_bound (c `mod` 6000) 100 ltac:(lia)).
  pose proof (Z.div_mod c 6000 ltac:(lia)).
  split_and!; try lia.
  apply (Z.mod_unique c 100 (60 * (c `div` 6000) + (c `mod` 6000) `div` 100)); lia.
Qed.

Lemma format_time_eq c :
  let minutes := c `div` 6000 in
  let remainder := c `mod` 6000 in
  let seconds := remainder `div` 100 in
  let fractional := remainder `mod` 100 in
  format_time c =
    if decide (0 < minutes)
    then str minutes +:+ ":" +:+ two_digits seconds +:+ "." +:+ two_digits fractional
    else str seconds +:+ "." +:+ two_digits fractional.
Proof.
  intros minutes remainder seconds fractional.
  destruct (divmod_6000_bounds c) as (Hs & Hf & _).
  unfold format_time, divmod. fold minutes remainder seconds fractional.
  rewrite !format_0d_2 by done.
  destruct (Z.ltb_spec 0 minutes); [by rewrite decide_True|by rewrite decide_False by lia].
Qed.

(** Claim C6.  For every non-negative integer [centiseconds], with
    [(minutes, remainder) = divmod(centiseconds, 6000)] and
    [(seconds, fractional) = divmod(remainder, 100)], [format_time] returns
    minutes, a colon, seconds on two digits, a point and the fractional part
    on two digits when [minutes > 0], and seconds, a point and the
    fractional part on two digits otherwise; [format_time 6105] is
    ["1:01.05"] and [format_time 305] is ["3.05"].  (Lemma [format_time_eq]
    shows the equation needs no sign condition.) *)
Theorem format_time_spec :
  (∀ centiseconds,
     0 ≤ centiseconds →
     let '(minutes, remainder) := divmod centiseconds 6000 in
     let '(seconds, fractional) := divmod remainder 100 in
     format_time centiseconds =
       if decide (0 < minutes)
       then str minutes +:+ ":" +:+ two_digits seconds +:+ "." +:+ two_digits fractional
       else str seconds +:+ "." +:+ two_digits fractional) ∧
  format_time 6105 = "1:01.05" ∧
  format_time 305 = "3.05".
Proof.
  split; [|by vm_compute].
  intros centiseconds _. unfold divmod. apply format_time_eq.
Qed.

Lemma format_time_spec_witness :
  0 ≤ 6105 ∧
  format_time 6105 = str 1 +:+ ":" +:+ two_digits 1 +:+ "." +:+ two_digits 5.
Proof.
  split; [lia|]. apply (proj1 format_time_spec 6105). lia.
Defined.

Lemma split_at_first sep pre rest :
  Forall (λ c, c ≠ sep) pre → split_at sep (pre ++ sep :: rest) = Some (pre, rest).
Proof.
  induction pre as [|c pre IH]; intros Hpre; simpl.
  - by rewrite decide_True.
  - inversion_clear Hpre as [|?? Hc Hpre']. rewrite decide_False by done.
    by rewrite IH.
Qed.

Lemma split_at_absent sep cs : Forall (λ c, c ≠ sep) cs → split_at sep cs = None.
Proof.
  induction cs as [|c cs IH]; intros Hcs; simpl; [done|].
  inversion_clear Hcs as [|?? Hc Hcs']. rewrite decide_False by done.
  by rewrite IH.
Qed.

Lemma digit_chars_no_colon ds :
  Forall is_digit ds → Forall (λ c, c ≠ ":"%char) (ascii_of_digit <$> ds).
Proof.
  intros Hds. apply Forall_fmap. eapply Forall_impl; [done|].
  intros d Hd. by apply ascii_of_digit_not_punct.
Qed.

Lemma digit_chars_no_point ds :
  Forall is_digit ds → Forall (λ c, c ≠ "."%char) (ascii_of_digit <$> ds).
Proof.
  intros Hds. apply Forall_fmap. eapply Forall_impl; [done|].
  intros d Hd. by apply ascii_of_digit_not_punct.
Qed.

Lemma two_digits_are_digits x : 0 ≤ x < 100 → Forall is_digit [x `div` 10; x `mod` 10].
Proof.
  intros Hx.
  pose proof (Z.div_mod x 10 ltac:(lia)).
  pose proof (Z.mod_pos_bound x 10 ltac:(lia)).
  apply Forall_cons_2; [unfold is_digit; lia|].
  apply Forall_cons_2; [unfold is_digit; lia|]. apply Forall_nil_2.
Qed.

Lemma parse_time_seconds s f :
  0 ≤ s → 0 ≤ f < 100 →
  ∀ sec, sec = str s ∨ (s < 100 ∧ sec = two_digits s) →
  let rest := list_ascii_of_string (sec +:+ "." +:+ two_digits f) in
  Forall (λ c, c ≠ ":"%char) rest ∧
  ∃ cs, split_at "." rest = Some (cs, list_ascii_of_string (two_digits f)) ∧
        int_of_str (string_of_list_ascii cs) = Ok s.
Proof.
  intros Hs Hf sec Hsec rest.
  assert (∃ ds, sec = string_of_list_ascii (ascii_of_digit <$> ds) ∧
                Forall is_digit ds ∧ ds ≠ [] ∧ digits_value ds = s) as (ds & -> & Hds & Hne & Hv).
  { destruct Hsec as [->|[Hlt ->]].
    - destruct (decimal_digits_spec s Hs) as (Hv & Hd & Hl & _).
      exists (decimal_digits s). rewrite str_nonneg by done. split_and!; try done.
      intros E. rewrite E in Hl. simpl in Hl. lia.
    - exists [s `div` 10; s `mod` 10]. split_and!; try done.
      + by apply two_digits_are_digits.
      + unfold digits_value. cbn [foldl].
        pose proof (Z.div_mod s 10 ltac:(lia)). lia. }
  subst rest. rewrite !chars_app, chars_of_chars, two_digits_chars, chars_of_chars.
  pose proof (two_digits_are_digits f Hf) as Hfd.
  split.
  - apply Forall_app. split; [by apply digit_chars_no_colon|].
    apply Forall_app. split; [by repeat constructor|by apply digit_chars_no_colon].
  - eexists. split.
    + apply split_at_first. by apply digit_chars_no_point.
    + rewrite int_of_str_digits by done. by rewrite Hv.
Qed.

(** Claim C9.  For every non-negative integer [best], parsing the text
    [format_time best] back into minutes, seconds and fractional part gives
    [(best div 6000, (best mod 6000) div 100, best mod 100)]. *)
Theorem format_time_roundtrip best :
  0 ≤ best →
  parse_time (format_time best) =
    Ok (best `div` 6000, (best `mod` 6000) `div` 100, best `mod` 100).
Proof.
  intros Hbest.
  destruct (divmod_6000_bounds best) as (Hs & Hf & Hfm).
  rewrite format_time_eq. cbv zeta. rewrite <- Hfm.
  set (m := best `div` 6000). set (s := (best `mod` 6000) `div` 100) in *.
  set (f := (best `mod` 6000) `mod` 100) in *.
  assert (0 ≤ m) by (apply Z.div_pos; lia).
  unfold parse_time.
  destruct (decide (0 < m)) as [Hm|Hm].
  - destruct (parse_time_seconds s f ltac:(lia) Hf (two_digits s))
      as (_ & cs & Hsplit & Hcs); [right; split; [lia|done]|].
    destruct (decimal_digits_spec m ltac:(done)) as (Hv & Hd & Hl & _).
    rewrite (chars_app (str m)), (chars_app ":"), str_nonneg, chars_of_chars by done.
    change (list_ascii_of_string ":") with [":"%char]. cbn [app].
    rewrite split_at_first by (by apply digit_chars_no_colon).
    rewrite <- str_nonneg, int_of_str_str by done. py_step.
    rewrite Hsplit. py_step. rewrite Hcs.
    py_step.
    rewrite string_of_list_ascii_of_string, int_of_str_two_digits by done.
    reflexivity.
  - assert (m = 0) as -> by lia.
    destruct (parse_time_seconds s f ltac:(lia) Hf (str s))
      as (Hcolon & cs & Hsplit & Hcs); [by left|].
    rewrite split_at_absent by done. py_step.
    rewrite Hsplit. py_step. rewrite Hcs.
    py_step.
    rewrite string_of_list_ascii_of_string, int_of_str_two_digits by done.
    reflexivity.
Qed.

Lemma format_time_roundtrip_witness :
  0 ≤ 6105 ∧ parse_time (format_time 6105) = Ok (1, 1, 5).
Proof.
  split; [lia|]. apply (format_time_roundtrip 6105). lia.
Defined.

Example format_time_roundtrip_negative :
  format_time (-1) = "59.99" ∧ parse_time (format_time (-1)) = Ok (0, 59, 99).
Proof. by vm_compute. Qed.

(** *** Slices of digit lists *)

Lemma digits_value_take ds n :
  Forall is_digit ds → (n ≤ length ds)%nat →
  digits_value (take n ds) = digits_value ds `div` 10 ^ Z.of_nat (length ds - n).
Proof.
  intros Hds Hn.
  pose proof (digits_value_app (take n ds) (drop n ds)) as Happ.
  rewrite take_drop in Happ.
  pose proof (digits_value_bound (drop n ds) (Forall_drop _ _ _ Hds)) as Hb.
  rewrite length_drop in Happ, Hb.
  apply (Z.div_unique _ _ _ (digits_value (drop n ds))); lia.
Qed.

Lemma digits_value_drop ds n :
  Forall is_digit ds → (n ≤ length ds)%nat →
  digits_value (drop n ds) = digits_value ds `mod` 10 ^ Z.of_nat (length ds - n).
Proof.
  intros Hds Hn.
  pose proof (digits_value_app (take n ds) (drop n ds)) as Happ.
  rewrite take_drop in Happ.
  pose proof (digits_value_bound (drop n ds) (Forall_drop _ _ _ Hds)) as Hb.
  rewrite length_drop in Happ, Hb.
  apply (Z.mod_unique _ _ (digits_value (take n ds))); lia.
Qed.

(** The characters of [format_0d w n]: the sign, then the digits of a list
    whose value is [|n|], zero-filled to the width. *)
Lemma format_0d_chars w n :
  ∃ ds,
    list_ascii_of_string (format_0d w n) = sign_chars n ++ (ascii_of_digit <$> ds) ∧
    Forall is_digit ds ∧ digits_value ds = Z.abs n ∧
    length ds =
      ((w - length (sign_chars n)) `max` length (decimal_digits (Z.abs n)))%nat.
Proof.
  destruct (decimal_digits_spec (Z.abs n) (Z.abs_nonneg n)) as (Hv & Hd & Hl & _).
  set (pad := (w - length (sign_chars n) - length (digit_chars n))%nat).
  exists (replicate pad 0 ++ decimal_digits (Z.abs n)). split_and!.
  - unfold format_0d. cbv zeta. rewrite chars_of_chars. fold pad.
    by rewrite fmap_app, fmap_replicate.
  - apply Forall_app. split; [|done].
    apply Forall_replicate. unfold is_digit. lia.
  - by rewrite digits_value_zeros.
  - rewrite length_app, length_replicate. subst pad.
    unfold digit_chars. rewrite length_fmap. lia.
Qed.

Lemma int_of_str_signed sign ds :
  sign = [] ∨ sign = ["-"%char] →
  Forall is_digit ds → ds ≠ [] →
  ∃ v, int_of_str (string_of_list_ascii (sign ++ (ascii_of_digit <$> ds))) = Ok v.
Proof.
  intros [->| ->] Hds Hne.
  - eexists. by apply int_of_str_digits.
  - unfold int_of_str. rewrite chars_of_chars. cbn [app].
    rewrite decide_True by done. rewrite parse_unsigned_chars by done.
    by eexists.
Qed.

Lemma nonempty_length {A} (l : list A) : (0 < length l)%nat → l ≠ [].
Proof. by destruct l; simpl; [lia|]. Qed.

Lemma format_mbf_result_bind best points time missed :
  int_of_str (slice_to 2 (format_0d 8 best)) = Ok points →
  int_of_str (slice_mid 2 2 (format_0d 8 best)) = Ok time →
  int_of_str (slice_last 2 (format_0d 8 best)) = Ok missed →
  format_mbf_result best = Ok (mbf_text points time missed).
Proof.
  intros H1 H2 H3. unfold format_mbf_result. cbv zeta.
  rewrite H1. py_step.
  rewrite H2. py_step.
  rewrite H3. reflexivity.
Qed.

Lemma format_mbf_result_digits best :
  0 ≤ best →
  ∃ ds, Forall is_digit ds ∧ digits_value ds = best ∧
        length ds = (8 `max` length (decimal_digits best))%nat ∧
        format_mbf_result best =
          Ok (mbf_text (digits_value (take 2 ds))
                (digits_value (take (length ds - 4) (drop 2 ds)))
                (digits_value (drop (length ds - 2) ds))).
Proof.
  intros Hbest.
  destruct (format_0d_chars 8 best) as (ds & Hchars & Hds & Hv & Hlen).
  rewrite sign_chars_nonneg in Hchars, Hlen by done.
  rewrite Z.abs_eq in Hv, Hlen by done. cbn [app length] in Hchars, Hlen.
  exists ds. split_and!; [done|done|lia|].
  apply format_mbf_result_bind.
  - unfold slice_to. rewrite Hchars, <- fmap_take.
    apply int_of_str_digits; [by apply Forall_take|].
    apply nonempty_length. rewrite length_take. lia.
  - unfold slice_mid. cbv zeta. rewrite Hchars, length_fmap, <- fmap_drop, <- fmap_take.
    replace (length ds - 2 - 2)%nat with (length ds - 4)%nat by lia.
    apply int_of_str_digits; [by apply Forall_take, Forall_drop|].
    apply nonempty_length. rewrite length_take, length_drop. lia.
  - unfold slice_last. cbv zeta. rewrite Hchars, length_fmap, <- fmap_drop.
    apply int_of_str_digits; [by apply Forall_drop|].
    apply nonempty_length. rewrite length_drop. lia.
Qed.

Lemma format_mbf_result_total best : ∃ s, format_mbf_result best = Ok s.
Proof.
  destruct (Z.le_gt_cases 0 best) as [Hpos|Hneg].
  { destruct (format_mbf_result_digits best Hpos) as (ds & _ & _ & _ & ->). by eexists. }
  destruct (format_0d_chars 8 best) as (ds & Hchars & Hds & _ & Hlen).
  assert (sign_chars best = ["-"%char]) as Hsign.
  { unfold sign_chars. by destruct (Z.ltb_spec best 0); [|lia]. }
  rewrite Hsign in Hchars, Hlen. cbn [app length] in Hchars, Hlen.
  assert (∃ points, int_of_str (slice_to 2 (format_0d 8 best)) = Ok points) as [points H1].
  { unfold slice_to. rewrite Hchars. cbn [take]. rewrite <- fmap_take.
    apply (int_of_str_signed ["-"%char]); [by right|by apply Forall_take|].
    apply nonempty_length. rewrite length_take. lia. }
  assert (∃ time, int_of_str (slice_mid 2 2 (format_0d 8 best)) = Ok time) as [time H2].
  { unfold slice_mid. cbv zeta. rewrite Hchars. cbn [length drop].
    rewrite length_fmap, <- fmap_drop, <- fmap_take.
    eexists. apply int_of_str_digits; [by apply Forall_take, Forall_drop|].
    apply nonempty_length. rewrite length_take, length_drop. lia. }
  assert (∃ missed, int_of_str (slice_last 2 (format_0d 8 best)) = Ok missed) as [missed H3].
  { unfold slice_last. cbv zeta. rewrite Hchars. cbn [length].
    rewrite length_fmap.
    replace (S (length ds) - 2)%nat with (S (length ds - 2)) by lia.
    cbn [drop]. rewrite <- fmap_drop.
    eexists. apply int_of_str_digits; [by apply Forall_drop|].
    apply nonempty_length. rewrite length_drop. lia. }
  rewrite (format_mbf_result_bind _ _ _ _ H1 H2 H3). by eexists.
Qed.

Lemma padded_length best k (ds : list Z) :
  0 ≤ best → 8 ≤ k → best < 10 ^ k → (k = 8 ∨ 10 ^ (k - 1) ≤ best) →
  length ds = (8 `max` length (decimal_digits best))%nat →
  Z.of_nat (length ds) = k.
Proof.
  intros Hbest Hk Hub Hlb Hlen.
  destruct (decimal_digits_spec best Hbest) as (_ & _ & Hl & Hub' & Hlb').
  set (len := length (decimal_digits best)) in *.
  assert (Z.of_nat len ≤ k) as Hle.
  { destruct Hlb' as [->|Hlb']; [lia|].
    apply Z.lt_pred_le, (Z.pow_lt_mono_r_iff 10); [lia..|].
    rewrite <- Z.sub_1_r. lia. }
  destruct Hlb as [->|Hlb]; [lia|].
  assert (k - 1 < Z.of_nat len); [|lia].
  apply (Z.pow_lt_mono_r_iff 10); lia.
Qed.

Lemma mod_mul_div a p :
  0 < p → (a `mod` (100 * p)) `div` 100 = (a `div` 100) `mod` p.
Proof.
  intros Hp. rewrite Z.rem_mul_r by lia.
  pose proof (Z.mod_pos_bound a 100 ltac:(lia)).
  symmetry. apply (Z.div_unique _ _ _ (a `mod` 100)); lia.
Qed.

(** Claim C3.  For every non-negative integer [best], written on [k] decimal
    digits after padding to at least 8 ([k] is 8 when [best < 10^8] and the
    number of digits of [best] otherwise): the first two digits are
    [best div 10^(k-2)], the digits from the third to the third last are
    [(best div 100) mod 10^(k-4)], the last two are [best mod 100];
    [format_mbf_result] returns solved, a slash, attempted, a space, minutes,
    a colon and seconds on two digits, with
    [solved = 99 - points_digits + missed_digits],
    [attempted = solved + missed_digits] and
    [(minutes, seconds) = divmod(time_digits, 60)];
    [format_mbf_result 3083703] is ["99/102 13:57"]. *)
Theorem format_mbf_result_spec :
  (∀ best k,
     0 ≤ best → 8 ≤ k → best < 10 ^ k → (k = 8 ∨ 10 ^ (k - 1) ≤ best) →
     let points_digits := best `div` 10 ^ (k - 2) in
     let time_digits := (best `div` 100) `mod` 10 ^ (k - 4) in
     let missed_digits := best `mod` 100 in
     let solved := 99 - points_digits + missed_digits in
     let attempted := solved + missed_digits in
     let '(minutes, seconds) := divmod time_digits 60 in
     format_mbf_result best =
       Ok (str solved +:+ "/" +:+ str attempted +:+ " " +:+
           str minutes +:+ ":" +:+ two_digits seconds)) ∧
  format_mbf_result 3083703 = Ok "99/102 13:57".
Proof.
  split; [|by vm_compute].
  intros best k Hbest Hk Hub Hlb. cbv zeta. unfold divmod.
  destruct (format_mbf_result_digits best Hbest) as (ds & Hds & Hv & Hlen & ->).
  pose proof (padded_length best k ds Hbest Hk Hub Hlb Hlen) as HL.
  assert (0 < 10 ^ (k - 4)) as Hp by (apply Z.pow_pos_nonneg; lia).
  assert (10 ^ (k - 2) = 100 * 10 ^ (k - 4)) as Hp2.
  { replace (k - 2) with (2 + (k - 4)) by lia. by rewrite Z.pow_add_r by lia. }
  assert (digits_value (take 2 ds) = best `div` 10 ^ (k - 2)) as ->.
  { rewrite digits_value_take, Hv by (done || lia). do 2 f_equal. lia. }
  assert (digits_value (drop (length ds - 2) ds) = best `mod` 100) as ->.
  { rewrite digits_value_drop, Hv by (done || lia).
    replace (length ds - (length ds - 2))%nat with 2%nat by lia. done. }
  assert (digits_value (take (length ds - 4) (drop 2 ds)) =
          (best `div` 100) `mod` 10 ^ (k - 4)) as ->.
  { rewrite digits_value_take by (by apply Forall_drop || (rewrite length_drop; lia)).
    rewrite digits_value_drop, Hv by (done || lia).
    rewrite length_drop.
    replace (length ds - 2 - (length ds - 4))%nat with 2%nat by lia.
    replace (Z.of_nat (length ds - 2)) with (k - 2) by lia.
    rewrite Hp2. change (10 ^ Z.of_nat 2) with 100. by apply mod_mul_div. }
  unfold mbf_text. cbv zeta.
  rewrite format_0d_2; [done|].
  pose proof (Z.mod_pos_bound ((best `div` 100) `mod` 10 ^ (k - 4)) 60 ltac:(lia)). lia.
Qed.

Lemma format_mbf_result_spec_witness :
  0 ≤ 3083703 ∧ 8 ≤ 8 ∧ 3083703 < 10 ^ 8 ∧
  format_mbf_result 3083703 =
    Ok (str (99 - 3 + 3) +:+ "/" +:+ str (99 - 3 + 3 + 3) +:+ " " +:+
        str 13 +:+ ":" +:+ two_digits 57).
Proof.
  split; [lia|]. split; [lia|]. split; [reflexivity|].
  apply (proj1 format_mbf_result_spec 3083703 8); [lia | lia | reflexivity | by left].
Defined.

Lemma truncation_spec (q : Qc) :
  let n := Qnum q ÷ Z.pos (Qden q) in
  ((0 <= q)%Q → (inject_Z n <= q)%Q ∧ (q < inject_Z (n + 1))%Q) ∧
  ((q <= 0)%Q → (inject_Z (n - 1) < q)%Q ∧ (q <= inject_Z n)%Q).
Proof.
  intros n. subst n. destruct q as [[a b] Hcanon]. cbn [this Qnum Qden].
  unfold Qle, Qlt, inject_Z. cbn [Qnum Qden].
  pose proof (Z.quot_rem' a (Z.pos b)) as Hqr.
  split; intros Ha.
  - pose proof (Z.rem_bound_pos a (Z.pos b) ltac:(lia) ltac:(lia)). nia.
  - pose proof (Z.rem_bound_pos_neg a (Z.pos b) ltac:(lia) ltac:(lia)). nia.
Qed.

(** Claim C5.  For every number [rank], [format_rank] truncates it to an
    integer [n] and appends ["st"] when [n = 1], ["nd"] when [n = 2], ["rd"]
    when [n = 3] and ["th"] for every other [n]; the ranks 1, 2, 3, 4, 11
    and 21 give ["1st"], ["2nd"], ["3rd"], ["4th"], ["11th"] and ["21th"]. *)
Theorem format_rank_spec :
  (∀ q : Qc, ∃ n suffix,
     is_truncation q n ∧
     format_rank (Finite q) = Ok (str n +:+ suffix) ∧
     (n = 1 → suffix = "st") ∧ (n = 2 → suffix = "nd") ∧ (n = 3 → suffix = "rd") ∧
     (n ≠ 1 → n ≠ 2 → n ≠ 3 → suffix = "th")) ∧
  format_rank (float_of_int 1) = Ok "1st" ∧
  format_rank (float_of_int 2) = Ok "2nd" ∧
  format_rank (float_of_int 3) = Ok "3rd" ∧
  format_rank (float_of_int 4) = Ok "4th" ∧
  format_rank (float_of_int 11) = Ok "11th" ∧
  format_rank (float_of_int 21) = Ok "21th".
Proof.
  split; [|by vm_compute].
  intros q. exists (Qnum q ÷ Z.pos (Qden q)).
  pose proof (truncation_spec q) as Htrunc. cbv zeta in Htrunc.
  unfold format_rank. cbn [int_of_float mbind py_result_bind bind].
  set (n := Qnum q ÷ Z.pos (Qden q)) in *.
  repeat case_decide.
  - exists "st". split_and!; (done || lia).
  - exists "nd". split_and!; (done || lia).
  - exists "rd". split_and!; (done || lia).
  - exists "th". split_and!; (done || lia).
Qed.

Lemma format_rank_not_a_number :
  format_rank NaN = Raise ValueError ∧
  format_rank PosInf = Raise OverflowError ∧
  format_rank NegInf = Raise OverflowError.
Proof. done. Qed.

Lemma format_best_result_other event_id best :
  event_id ≠ "333mbf" → event_id ≠ "333fm" →
  format_best_result event_id best = Ok (format_time best).
Proof.
  intros H1 H2. unfold format_best_result. by rewrite !decide_False by done.
Qed.

(** Claim C10.  For every integer [best],
    [format_best_result "333mbo" best] is [format_time best]: the event
    ["333mbo"] is in the table of display names, and only ["333mbf"] is
    decoded as a packed multi-blind result. *)
Theorem format_best_result_333mbo :
  (∀ best, format_best_result "333mbo" best = Ok (format_time best)) ∧
  format_event_name "333mbo" = "3x3 Multi-Blind Old Style" ∧
  (∀ event_id best,
     event_id = "333mbf" ∨
     format_best_result event_id best = Ok (str best) ∨
     format_best_result event_id best = Ok (format_time best)).
Proof.
  split_and!.
  - intros best. by apply format_best_result_other.
  - by vm_compute.
  - intros event_id best. unfold format_best_result.
    destruct (decide (event_id = "333mbf")) as [|_]; [by left|right].
    destruct (decide (event_id = "333fm")); [left|by right].
    by destruct (best <? 100).
Qed.

(** Claim C7, as amended.  [format_best_result] does not validate
    [best]: for every event and every integer [best], negative ones included,
    it returns a display string and raises nothing. *)
Theorem format_best_result_total event_id best :
  ∃ s, format_best_result event_id best = Ok s.
Proof.
  unfold format_best_result. repeat case_decide; [|by eexists..].
  apply format_mbf_result_total.
Qed.

(** Claim C7 as stated fails: a negative [best] is formatted, not rejected. *)
Lemma format_best_result_negative :
  format_best_result "333" (-1) = Ok "59.99" ∧
  ¬ (∀ event_id best, best < 0 → ∃ e, format_best_result event_id best = Raise e).
Proof.
  split; [by vm_compute|].
  intros H. destruct (H "333" (-1) ltac:(lia)) as [e He].
  vm_compute in He. discriminate.
Qed.

(** ** The join *)

Lemma merge_data_cons r results_df ranks_df :
  merge_data (r :: results_df) ranks_df =
    (join_rows r <$> filter (λ k, ranks_key k = results_key r) ranks_df) ++
    merge_data results_df ranks_df.
Proof. reflexivity. Qed.

Lemma merge_data_length_cons r results_df ranks_df :
  length (merge_data (r :: results_df) ranks_df) =
    (length (filter (λ k, ranks_key k = results_key r) ranks_df) +
     length (merge_data results_df ranks_df))%nat.
Proof. by rewrite merge_data_cons, length_app, length_fmap. Qed.

Lemma merge_data_length_le_product results_df ranks_df :
  (length (merge_data results_df ranks_df) ≤ length results_df * length ranks_df)%nat.
Proof.
  induction results_df as [|r results_df IH]; [done|].
  rewrite merge_data_length_cons. cbn [length].
  pose proof (length_filter (λ k, ranks_key k = results_key r) ranks_df). lia.
Qed.

Lemma filter_absent_key {A} (f : A → join_key) key (l : list A) :
  key ∉ f <$> l → filter (λ x, f x = key) l = [].
Proof.
  induction l as [|x l IH]; intros Hkey; [done|].
  rewrite fmap_cons in Hkey. apply not_elem_of_cons in Hkey as [Hne Hkey].
  rewrite filter_cons_False by done. by apply IH.
Qed.

Lemma filter_unique_key {A} (f : A → join_key) key (l : list A) :
  NoDup (f <$> l) → (length (filter (λ x, f x = key) l) ≤ 1)%nat.
Proof.
  induction l as [|x l IH]; intros Hnd; [simpl; lia|].
  rewrite fmap_cons in Hnd. apply NoDup_cons in Hnd as [Hx Hnd].
  destruct (decide (f x = key)) as [<-|Hne].
  - rewrite filter_cons_True by done. rewrite filter_absent_key by done. done.
  - rewrite filter_cons_False by done. by apply IH.
Qed.

Lemma merge_data_length_le_results results_df ranks_df :
  NoDup (ranks_key <$> ranks_df) →
  (length (merge_data results_df ranks_df) ≤ length results_df)%nat.
Proof.
  intros Hnd. induction results_df as [|r results_df IH]; [done|].
  rewrite merge_data_length_cons. cbn [length].
  pose proof (filter_unique_key ranks_key (results_key r) ranks_df Hnd). lia.
Qed.

Lemma length_filter_split {A} (P Q R : A → Prop)
    `{!∀ x, Decision (P x), !∀ x, Decision (Q x), !∀ x, Decision (R x)} (l : list A) :
  (∀ x, R x ↔ P x ∨ Q x) → (∀ x, P x → Q x → False) →
  length (filter R l) = (length (filter P l) + length (filter Q l))%nat.
Proof.
  intros HR Hdisj. induction l as [|x l IH]; [done|].
  rewrite !filter_cons.
  destruct (decide (P x)) as [HP|HP], (decide (Q x)) as [HQ|HQ].
  - by destruct (Hdisj x).
  - rewrite decide_True by (apply HR; by left). cbn [length]. lia.
  - rewrite decide_True by (apply HR; by right). cbn [length]. lia.
  - rewrite decide_False by (rewrite HR; tauto). done.
Qed.

Lemma merge_data_length_matched results_df ranks_df :
  NoDup (results_key <$> results_df) →
  length (merge_data results_df ranks_df) =
    length (filter (λ k, ranks_key k ∈ results_key <$> results_df) ranks_df).
Proof.
  induction results_df as [|r results_df IH]; intros Hnd.
  - cbn [fmap list_fmap]. symmetry. apply length_zero_iff_nil.
    induction ranks_df as [|k ranks_df IHk]; [done|].
    rewrite filter_cons_False; [done|]. apply not_elem_of_nil.
  - rewrite fmap_cons in Hnd. apply NoDup_cons in Hnd as [Hr Hnd].
    rewrite merge_data_length_cons, IH by done.
    symmetry. apply length_filter_split.
    + intros k. rewrite fmap_cons. apply elem_of_cons.
    + intros k Hk Hin. apply Hr. by rewrite <- Hk.
Qed.

Lemma merge_data_length_le_ranks results_df ranks_df :
  NoDup (results_key <$> results_df) →
  (length (merge_data results_df ranks_df) ≤ length ranks_df)%nat.
Proof.
  intros Hnd. rewrite merge_data_length_matched by done. apply length_filter.
Qed.

(** Claim C1, as amended.  When no two rows of [results_df] share a
    (personId, eventId, best) triple and no two rows of [ranks_df] share one,
    [merge_data] returns at most [min(|results_df|, |ranks_df|)] rows. *)
Theorem merge_data_size_unique_keys results_df ranks_df :
  NoDup (results_key <$> results_df) →
  NoDup (ranks_key <$> ranks_df) →
  (length (merge_data results_df ranks_df) ≤ length results_df `min` length ranks_df)%nat.
Proof.
  intros Hres Hranks.
  pose proof (merge_data_length_le_results results_df ranks_df Hranks).
  pose proof (merge_data_length_le_ranks results_df ranks_df Hres). lia.
Qed.

Lemma merge_data_size_unique_keys_witness :
  NoDup (results_key <$> [Sample.alice_result]) ∧
  NoDup (ranks_key <$> [Sample.bob_rank; Sample.alice_rank]) ∧
  (length (merge_data [Sample.alice_result] [Sample.bob_rank; Sample.alice_rank])
     ≤ length [Sample.alice_result] `min` length [Sample.bob_rank; Sample.alice_rank])%nat.
Proof.
  assert (NoDup (results_key <$> [Sample.alice_result])) as H1.
  { apply NoDup_singleton. }
  assert (NoDup (ranks_key <$> [Sample.bob_rank; Sample.alice_rank])) as H2.
  { apply NoDup_cons. split; [|apply NoDup_singleton].
    apply not_elem_of_cons. split; [discriminate|apply not_elem_of_nil]. }
  split; [exact H1|]. split; [exact H2|].
  exact (merge_data_size_unique_keys _ _ H1 H2).
Defined.

(** Claim C1 as stated fails: two result rows with the key of one rank row
    give two joined rows. *)
Lemma merge_data_size_counterexample :
  length (merge_data [Sample.alice_result; Sample.alice_result] [Sample.alice_rank]) = 2%nat ∧
  ¬ (∀ results_df ranks_df,
       (length (merge_data results_df ranks_df)
          ≤ length results_df `min` length ranks_df)%nat).
Proof.
  split; [by vm_compute|].
  intros H.
  specialize (H [Sample.alice_result; Sample.alice_result] [Sample.alice_rank]).
  vm_compute in H. lia.
Qed.

(** Claim C8.  Every row returned by [merge_data] is built from a row of
    [results_df] and a row of [ranks_df] whose (personId, eventId, best)
    triples both equal the triple of the returned row. *)
Theorem merge_data_keys results_df ranks_df :
  Forall (λ u, ∃ r k, r ∈ results_df ∧ k ∈ ranks_df ∧ u = join_rows r k ∧
                      results_key r = merged_key u ∧ ranks_key k = merged_key u)
    (merge_data results_df ranks_df).
Proof.
  apply Forall_forall. intros u Hu. unfold merge_data in Hu.
  apply list_elem_of_bind in Hu as (r & Hu & Hr).
  apply list_elem_of_fmap in Hu as (k & -> & Hk).
  apply list_elem_of_filter in Hk as [Hkey Hk].
  exists r, k. split_and!; try done.
Qed.

(** ** Floating-point comparison and the column maximum *)

Lemma float_eqb_true a b : float_eqb a b = true ↔ a = b ∧ b ≠ NaN.
Proof.
  destruct a, b; simpl; try (split; [done|intros [??]; done]).
  rewrite bool_decide_eq_true. split; [by intros ->|intros [[= ->] _]; done].
Qed.

Lemma float_ltb_irrefl a : float_ltb a a = false.
Proof.
  destruct a; simpl; try done.
  apply bool_decide_eq_false. intros Hlt. by apply Qclt_not_eq in Hlt.
Qed.

Lemma float_ltb_trans a b c :
  float_ltb a b = true → float_ltb b c = true → float_ltb a c = true.
Proof.
  destruct a, b, c; simpl; try done.
  rewrite !bool_decide_eq_true. apply Qclt_trans.
Qed.

Lemma float_ltb_total a b :
  a ≠ NaN → b ≠ NaN → float_ltb a b = false → float_ltb b a = false → a = b.
Proof.
  destruct a, b; simpl; try done.
  rewrite !bool_decide_eq_false. intros _ _ H1 H2.
  f_equal. apply Qcle_antisym; by apply Qcnot_lt_le.
Qed.

Lemma float_max_not_nan a b : a ≠ NaN → b ≠ NaN → float_max a b ≠ NaN.
Proof. intros Ha Hb. unfold float_max. by destruct (float_ltb a b). Qed.

Lemma foldl_float_max xs : ∀ x,
  x ≠ NaN → Forall (λ y, y ≠ NaN) xs →
  let m := foldl float_max x xs in
  m ≠ NaN ∧ m ∈ x :: xs ∧ ∀ y, y ∈ x :: xs → float_ltb m y = false.
Proof.
  induction xs as [|z xs IH]; intros x Hx Hxs; cbv zeta.
  - cbn [foldl]. split_and!; [done|apply list_elem_of_here|].
    intros y ->%list_elem_of_singleton. apply float_ltb_irrefl.
  - inversion_clear Hxs as [|?? Hz Hxs'].
    cbn [foldl].
    destruct (IH (float_max x z) (float_max_not_nan _ _ Hx Hz) Hxs') as (Hm & Hin & Hmax).
    set (m := foldl float_max (float_max x z) xs) in *.
    assert (float_ltb (float_max x z) x = false ∧ float_ltb (float_max x z) z = false)
      as [Hmx Hmz].
    { unfold float_max. destruct (float_ltb x z) eqn:Hlt.
      - split; [|apply float_ltb_irrefl].
        destruct (float_ltb z x) eqn:Hzx; [|done].
        by rewrite <- (float_ltb_irrefl x), (float_ltb_trans x z x Hlt Hzx).
      - split; [apply float_ltb_irrefl|done]. }
    assert (float_ltb m (float_max x z) = false) as Hmm
      by (apply Hmax, list_elem_of_here).
    assert (∀ y, float_ltb (float_max x z) y = false → float_ltb m y = false) as Hle.
    { intros y Hy. destruct (float_ltb m y) eqn:Hmy; [|done].
      destruct (decide (m = float_max x z)) as [Heq|Hne]; [congruence|].
      assert (float_ltb (float_max x z) m = true) as Hlt.
      { destruct (float_ltb (float_max x z) m) eqn:E; [done|].
        destruct Hne. apply float_ltb_total; try done.
        by apply float_max_not_nan. }
      by rewrite <- Hy, (float_ltb_trans _ _ _ Hlt Hmy). }
    split_and!; [done| |].
    + apply elem_of_cons in Hin as [Hin|Hin].
      * rewrite Hin. unfold float_max.
        destruct (float_ltb x z); [apply list_elem_of_further|]; apply list_elem_of_here.
      * by do 2 apply list_elem_of_further.
    + intros y Hy. apply elem_of_cons in Hy as [->|Hy]; [by apply Hle|].
      apply elem_of_cons in Hy as [->|Hy]; [by apply Hle|].
      by apply Hmax, list_elem_of_further.
Qed.

Lemma series_max_nan col :
  Forall (λ x, x = NaN) col → series_max col = NaN.
Proof.
  intros Hcol. unfold series_max.
  assert (filter (λ x, x ≠ NaN) col = []) as ->; [|done].
  induction Hcol as [|x col Hx _ IH]; [done|].
  by rewrite filter_cons_False by (by intros ?).
Qed.

Lemma series_max_is_max col :
  ¬ Forall (λ x, x = NaN) col → is_max_of col (series_max col).
Proof.
  intros Hcol. unfold series_max, is_max_of.
  destruct (filter (λ x, x ≠ NaN) col) as [|x xs] eqn:Hf.
  - destruct Hcol. apply Forall_forall. intros y Hy.
    destruct (decide (y = NaN)) as [|Hne]; [done|].
    assert (y ∈ filter (λ x, x ≠ NaN) col) as Hin by by apply list_elem_of_filter.
    rewrite Hf in Hin. by apply not_elem_of_nil in Hin.
  - assert (Forall (λ y, y ≠ NaN) (x :: xs)) as Hall.
    { rewrite <- Hf. apply Forall_forall. by intros y [? _]%list_elem_of_filter. }
    inversion_clear Hall as [|?? Hx Hxs].
    destruct (foldl_float_max xs x Hx Hxs) as (Hm & Hin & Hmax).
    split_and!; [done| |].
    + rewrite <- Hf in Hin. by apply list_elem_of_filter in Hin as [_ ?].
    + intros y Hy Hne. apply Hmax. rewrite <- Hf. by apply list_elem_of_filter.
Qed.

(** ** The rank query *)

(** The first row of [filter P l] is the first row of [l] that satisfies
    [P]. *)
Lemma head_filter_first {A} (P : A → Prop) `{!∀ x, Decision (P x)} (l : list A) :
  (head (filter P l) = None ∧ Forall (λ x, ¬ P x) l) ∨
  (∃ pre first post, l = pre ++ first :: post ∧ Forall (λ x, ¬ P x) pre ∧
                     P first ∧ head (filter P l) = Some first).
Proof.
  induction l as [|x l IH]; [by left|].
  destruct (decide (P x)) as [HP|HP].
  - right. exists [], x, l. rewrite filter_cons_True by done. by split_and!.
  - rewrite filter_cons_False by done.
    destruct IH as [[Hnone Hall]|(pre & first & post & -> & Hpre & Hfirst & Hhead)].
    + left. split; [done|]. by apply Forall_cons_2.
    + right. exists (x :: pre), first, post. split_and!; try done.
      by apply Forall_cons_2.
Qed.

Section rank_query.
Context (merged_df : list Merged.row) (event_id region : string).

Lemma filtered_subset_elem row :
  row ∈ filtered_subset merged_df event_id region ↔
  row ∈ merged_df ∧ Merged.eventId row = event_id ∧ Merged.personCountryId row = region.
Proof. unfold filtered_subset. rewrite list_elem_of_filter. tauto. Qed.

Lemma get_person_by_rank_eq rank_number :
  get_person_by_rank merged_df event_id region rank_number =
    resolved ← resolved_rank (filtered_subset merged_df event_id region) rank_number;
    Ok (head (filter (at_rank event_id region resolved) merged_df)).
Proof.
  unfold get_person_by_rank, filtered_subset, resolved_rank. cbv zeta.
  set (resolved := match rank_number with lowest => _ | rank n => _ end).
  destruct resolved as [resolved|e]; [|done]. py_step. f_equal.
  rewrite list_filter_filter.
  rewrite (list_filter_iff _ (at_rank event_id region resolved))
    by (intros row; unfold at_rank; tauto).
  by destruct (filter (at_rank event_id region resolved) merged_df).
Qed.

(** The answer of the query is the first row of the table that is of the
    event and the country and carries the resolved rank, if there is one. *)
Lemma get_person_by_rank_first rank_number resolved :
  resolved_rank (filtered_subset merged_df event_id region) rank_number = Ok resolved →
  (get_person_by_rank merged_df event_id region rank_number = Ok None ∧
   Forall (λ row, ¬ at_rank event_id region resolved row) merged_df) ∨
  (∃ pre first post,
     merged_df = pre ++ first :: post ∧
     Forall (λ row, ¬ at_rank event_id region resolved row) pre ∧
     at_rank event_id region resolved first ∧
     get_person_by_rank merged_df event_id region rank_number = Ok (Some first)).
Proof.
  intros Hres. rewrite get_person_by_rank_eq, Hres. py_step.
  destruct (head_filter_first (at_rank event_id region resolved) merged_df)
    as [[-> Hall]|(pre & first & post & Hsplit & Hpre & Hfirst & ->)]; [by left|].
  right. by exists pre, first, post.
Qed.

(** The query raises exactly what the conversion of the rank raises. *)
Lemma get_person_by_rank_raise rank_number e :
  get_person_by_rank merged_df event_id region rank_number = Raise e ↔
  resolved_rank (filtered_subset merged_df event_id region) rank_number = Raise e.
Proof.
  rewrite get_person_by_rank_eq.
  destruct (resolved_rank _ rank_number) as [resolved|e']; py_step.
  - split; intros H; discriminate.
  - split; intros [= ->]; done.
Qed.

(** Claim C2.  With the rank specification ["lowest"], the rank is resolved
    to the greatest [countryRank] of the rows whose [eventId] and
    [personCountryId] equal the arguments, and the first row of the table
    that is in this subset and carries the resolved rank is returned; when
    the subset has no rank that is a number, nothing carries it and the
    answer is [None]. *)
Theorem get_person_by_rank_lowest_spec :
  let subset := filtered_subset merged_df event_id region in
  let column := Merged.countryRank <$> subset in
  let resolved := series_max column in
  resolved_rank subset lowest = Ok resolved ∧
  (∀ row, row ∈ subset ↔
          row ∈ merged_df ∧ Merged.eventId row = event_id ∧
          Merged.personCountryId row = region) ∧
  ((Forall (λ x, x = NaN) column ∧
    get_person_by_rank merged_df event_id region lowest = Ok None) ∨
   (is_max_of column resolved ∧
    ∃ pre first post,
      merged_df = pre ++ first :: post ∧
      Forall (λ row, ¬ (Merged.eventId row = event_id ∧
                        Merged.personCountryId row = region ∧
                        Merged.countryRank row = resolved)) pre ∧
      Merged.eventId first = event_id ∧
      Merged.personCountryId first = region ∧
      Merged.countryRank first = resolved ∧
      get_person_by_rank merged_df event_id region lowest = Ok (Some first))).
Proof.
  intros subset column resolved.
  split; [reflexivity|].
  split; [intros row; apply filtered_subset_elem|].
  destruct (get_person_by_rank_first lowest resolved eq_refl)
    as [[Hnone Hall]|(pre & first & post & Hsplit & Hpre & [Hsub Hfirst] & Hsome)].
  - left. split; [|done].
    destruct (decide (Forall (λ x, x = NaN) column)) as [|Hnum]; [done|].
    destruct (series_max_is_max column Hnum) as (Hm & Hin & _).
    change (series_max column) with resolved in Hm, Hin.
    apply list_elem_of_fmap in Hin as (row & Hrow & Hin).
    apply filtered_subset_elem in Hin as (Hin & Hev & Hreg).
    rewrite Forall_forall in Hall. destruct (Hall row Hin).
    split; [done|]. apply Is_true_true, float_eqb_true. by split.
  - right. apply Is_true_true, float_eqb_true in Hfirst as [Hfirst Hm].
    split.
    + apply series_max_is_max. intros Hnan.
      by apply series_max_nan in Hnan.
    + exists pre, first, post. destruct Hsub as [Hev Hreg]. split_and!; try done.
      eapply Forall_impl; [exact Hpre|]. intros row Hrow (Hev' & Hreg' & Heq).
      apply Hrow. split; [done|]. apply Is_true_true, float_eqb_true. by split.
Qed.

(** Claim C4, as amended.  For the rank ["lowest"], and for an integer rank
    whose conversion to a float does not raise: when the filtered subset is
    empty, or no row of it has a [countryRank] equal to the resolved rank,
    [get_person_by_rank] returns [None] and raises nothing. *)
Theorem get_person_by_rank_not_found rank_number resolved :
  resolved_rank (filtered_subset merged_df event_id region) rank_number = Ok resolved →
  filtered_subset merged_df event_id region = [] ∨
  (∀ row, row ∈ filtered_subset merged_df event_id region →
          float_eqb (Merged.countryRank row) resolved = false) →
  get_person_by_rank merged_df event_id region rank_number = Ok None.
Proof.
  intros Hres Hnone.
  destruct (get_person_by_rank_first rank_number resolved Hres)
    as [[Hhead _]|(pre & first & post & Hsplit & _ & [Hsub Hfirst] & _)]; [done|].
  assert (first ∈ filtered_subset merged_df event_id region) as Hin.
  { apply filtered_subset_elem. split; [|done].
    rewrite Hsplit. apply elem_of_app. right. apply list_elem_of_here. }
  destruct Hnone as [Hnone|Hnone].
  - rewrite Hnone in Hin. by apply not_elem_of_nil in Hin.
  - by rewrite (Hnone first Hin) in Hfirst.
Qed.

End rank_query.

Lemma get_person_by_rank_not_found_witness :
  resolved_rank (filtered_subset [Sample.alice; Sample.bob] "333" "CA") lowest = Ok NaN ∧
  filtered_subset [Sample.alice; Sample.bob] "333" "CA" = [] ∧
  get_person_by_rank [Sample.alice; Sample.bob] "333" "CA" lowest = Ok None.
Proof.
  assert (resolved_rank (filtered_subset [Sample.alice; Sample.bob] "333" "CA") lowest
          = Ok NaN) as Hres by reflexivity.
  assert (filtered_subset [Sample.alice; Sample.bob] "333" "CA" = []) as H
    by reflexivity.
  split; [exact Hres|]. split; [exact H|].
  exact (get_person_by_rank_not_found [Sample.alice; Sample.bob] "333" "CA" lowest NaN
           Hres (or_introl H)).
Defined.

(** Claim C4 as stated fails: an integer rank too large for a float makes
    the comparison raise, on an empty subset and on a subset none of whose
    ranks equals it. *)
Lemma get_person_by_rank_overflow :
  filtered_subset [] "333" "US" = [] ∧
  get_person_by_rank [] "333" "US" (rank (10 ^ 400)) = Raise OverflowError ∧
  get_person_by_rank [Sample.alice] "333" "US" (rank (10 ^ 400)) = Raise OverflowError ∧
  ¬ (∀ merged_df event_id region rank_number,
       filtered_subset merged_df event_id region = [] →
       get_person_by_rank merged_df event_id region rank_number = Ok None).
Proof.
  split; [reflexivity|]. split; [by vm_compute|]. split; [by vm_compute|].
  intros H. specialize (H [] "333" "US" (rank (10 ^ 400)) eq_refl).
  vm_compute in H. discriminate.
Qed.

Example get_person_by_rank_ties :
  get_person_by_rank [Sample.alice; Sample.bob; Sample.unranked; Sample.carol]
    "333" "US" lowest = Ok (Some Sample.bob).
Proof. by vm_compute. Qed.

Example get_person_by_rank_unranked :
  get_person_by_rank [Sample.unranked] "333" "US" lowest = Ok None.
Proof. by vm_compute. Qed.

Example get_person_by_rank_no_such_rank :
  get_person_by_rank [Sample.alice; Sample.bob] "333" "US" (rank 5) = Ok None.
Proof. by vm_compute. Qed.

Example get_person_by_rank_rounds :
  get_person_by_rank [Sample.alice; Sample.grace] "333" "US" (rank 16777217)
    = Ok (Some Sample.grace).
Proof. by vm_compute. Qed.

Example end_to_end :
  get_person_by_rank [Sample.alice] "333" "US" (rank 1) = Ok (Some Sample.alice) ∧
  format_rank (Merged.countryRank Sample.alice) = Ok "1st" ∧
  format_best_result (Merged.eventId Sample.alice) (Merged.best Sample.alice) = Ok "6.10".
Proof. by vm_compute. Qed.

(** * Further properties *)

(** ** The conversion of an integer rank *)

Lemma float32_of_int_raise n e : float32_of_int n = Raise e → e = OverflowError.
Proof.
  unfold float32_of_int, double_of_int. cbv zeta.
  destruct (2 ^ 1024 <=? Z.abs (round_to_bits 53 n)); py_step; congruence.
Qed.

Lemma float32_of_int_not_nan n r : float32_of_int n = Ok r → r ≠ NaN.
Proof.
  unfold float32_of_int, double_of_int. cbv zeta.
  destruct (2 ^ 1024 <=? Z.abs (round_to_bits 53 n)); py_step; [done|].
  intros [= <-]. unfold float32_of_double. cbv zeta.
  destruct (2 ^ 128 <=? _); [by destruct (0 <? _)|done].
Qed.

Lemma round_to_bits_small p n : Z.abs n < 2 ^ p → round_to_bits p n = n.
Proof.
  intros Hn. unfold round_to_bits. cbv zeta.
  destruct (Z.leb_spec (Z.log2 (Z.abs n) + 1 - p) 0) as [|He]; [done|].
  destruct (decide (Z.abs n = 0)) as [H0|H0].
  { rewrite H0 in He. change (Z.log2 0) with 0 in He.
    assert (0 ≤ p); [|lia].
    destruct (Z.le_gt_cases 0 p); [done|]. rewrite Z.pow_neg_r in Hn; lia. }
  assert (Z.log2 (Z.abs n) < p); [|lia].
  apply Z.log2_lt_pow2; lia.
Qed.

(** Up to [2^24] in absolute value the conversion is exact. *)
Lemma float32_of_int_exact n :
  Z.abs n ≤ 2 ^ 24 → float32_of_int n = Ok (float_of_int n).
Proof.
  intros Hn. unfold float32_of_int, double_of_int. cbv zeta.
  rewrite (round_to_bits_small 53) by lia.
  destruct (Z.leb_spec (2 ^ 1024) (Z.abs n)) as [Hbig|_]; [lia|]. py_step.
  f_equal. unfold float32_of_double. cbv zeta.
  destruct (decide (Z.abs n = 2 ^ 24)) as [Heq|Hne].
  - assert (n = 2 ^ 24 ∨ n = - 2 ^ 24) as [-> | ->] by lia; reflexivity.
  - rewrite (round_to_bits_small 24) by lia.
    destruct (Z.leb_spec (2 ^ 128) (Z.abs n)) as [Hbig|_]; [lia|done].
Qed.

(** ** The join, continued *)

Lemma elem_of_merge_data results_df ranks_df u :
  u ∈ merge_data results_df ranks_df ↔
  ∃ r k, r ∈ results_df ∧ k ∈ ranks_df ∧ ranks_key k = results_key r ∧
         u = join_rows r k.
Proof.
  unfold merge_data. rewrite list_elem_of_bind. split.
  - intros (r & Hu & Hr). apply list_elem_of_fmap in Hu as (k & -> & Hk).
    apply list_elem_of_filter in Hk as [Hkey Hk]. by exists r, k.
  - intros (r & k & Hr & Hk & Hkey & ->). exists r. split; [|done].
    apply list_elem_of_fmap. exists k. split; [done|].
    by apply list_elem_of_filter.
Qed.

(** Property X1. The rows of the join are exactly the pairs of a result row
    and a rank row with equal keys. *)
Theorem merge_data_elem results_df ranks_df u :
  u ∈ merge_data results_df ranks_df ↔
  ∃ r k, r ∈ results_df ∧ k ∈ ranks_df ∧ ranks_key k = results_key r ∧
         u = join_rows r k.
Proof. apply elem_of_merge_data. Qed.

Lemma merge_data_nil_iff results_df ranks_df :
  merge_data results_df ranks_df = [] ↔
  ∀ r k, r ∈ results_df → k ∈ ranks_df → results_key r ≠ ranks_key k.
Proof.
  split.
  - intros Hempty r k Hr Hk Hkey.
    assert (join_rows r k ∈ merge_data results_df ranks_df) as Hin.
    { apply elem_of_merge_data. by exists r, k. }
    rewrite Hempty in Hin. by apply not_elem_of_nil in Hin.
  - intros Hno. destruct (merge_data results_df ranks_df) as [|u us] eqn:Hm; [done|].
    assert (u ∈ merge_data results_df ranks_df) as Hin
      by (rewrite Hm; apply list_elem_of_here).
    apply elem_of_merge_data in Hin as (r & k & Hr & Hk & Hkey & _).
    by destruct (Hno r k Hr Hk).
Qed.

(** Property X2. The join is empty exactly when no key of the results occurs
    among the keys of the ranks: two tables that both have rows can still
    join to nothing. *)
Theorem merge_data_empty results_df ranks_df :
  merge_data results_df ranks_df = [] ↔
  ∀ r k, r ∈ results_df → k ∈ ranks_df → results_key r ≠ ranks_key k.
Proof. apply merge_data_nil_iff. Qed.

Lemma unique_key_row {A} (f : A → join_key) (l : list A) x y :
  NoDup (f <$> l) → x ∈ l → y ∈ l → f x = f y → x = y.
Proof.
  induction l as [|z l IH]; intros Hnd Hx Hy Hxy.
  - by apply not_elem_of_nil in Hx.
  - rewrite fmap_cons in Hnd. apply NoDup_cons in Hnd as [Hz Hnd].
    apply elem_of_cons in Hx as [->|Hx], Hy as [->|Hy]; [done| | |by apply IH].
    + destruct Hz. rewrite Hxy. by apply list_elem_of_fmap_2.
    + destruct Hz. rewrite <- Hxy. by apply list_elem_of_fmap_2.
Qed.

(** Property X3. When the ranks table has one row per key, the join gives
    one rank to a key: joined rows with the same (personId, eventId, best)
    carry the same [countryRank]. *)
Theorem merge_data_rank_determined results_df ranks_df u1 u2 :
  NoDup (ranks_key <$> ranks_df) →
  u1 ∈ merge_data results_df ranks_df →
  u2 ∈ merge_data results_df ranks_df →
  merged_key u1 = merged_key u2 →
  Merged.countryRank u1 = Merged.countryRank u2.
Proof.
  intros Hnd (r1 & k1 & _ & Hk1 & Hkey1 & ->)%elem_of_merge_data
             (r2 & k2 & _ & Hk2 & Hkey2 & ->)%elem_of_merge_data Hkey.
  assert (k1 = k2) as ->; [|done].
  apply (unique_key_row ranks_key ranks_df); [done..|].
  rewrite Hkey1, Hkey2. exact Hkey.
Qed.

Lemma merge_data_rank_determined_witness :
  NoDup (ranks_key <$> [Sample.alice_rank; Sample.bob_rank]) ∧
  join_rows Sample.alice_result Sample.alice_rank ≠
    join_rows Sample.alice_moved Sample.alice_rank ∧
  Merged.countryRank (join_rows Sample.alice_result Sample.alice_rank) =
  Merged.countryRank (join_rows Sample.alice_moved Sample.alice_rank).
Proof.
  assert (NoDup (ranks_key <$> [Sample.alice_rank; Sample.bob_rank])) as Hnd.
  { apply NoDup_cons. split; [|apply NoDup_singleton].
    apply not_elem_of_cons. split; [discriminate|apply not_elem_of_nil]. }
  split; [exact Hnd|]. split; [discriminate|].
  apply (merge_data_rank_determined
           [Sample.alice_result; Sample.alice_moved]
           [Sample.alice_rank; Sample.bob_rank]); [exact Hnd| | |reflexivity].
  - vm_compute. apply list_elem_of_here.
  - vm_compute. apply list_elem_of_further, list_elem_of_here.
Defined.

Lemma filter_present_key {A} (f : A → join_key) key (l : list A) :
  NoDup (f <$> l) → key ∈ f <$> l → length (filter (λ x, f x = key) l) = 1%nat.
Proof.
  induction l as [|x l IH]; intros Hnd Hkey.
  - by apply not_elem_of_nil in Hkey.
  - rewrite fmap_cons in Hnd, Hkey. apply NoDup_cons in Hnd as [Hx Hnd].
    destruct (decide (f x = key)) as [<-|Hne].
    + rewrite filter_cons_True by done. by rewrite filter_absent_key.
    + rewrite filter_cons_False by done. apply IH; [done|].
      apply elem_of_cons in Hkey as [?|?]; [congruence|done].
Qed.

(** Property X4. When the ranks table has one row per key, every result row
    whose key is ranked is joined exactly once and the others are dropped:
    the join has as many rows as there are result rows with a ranked key. *)
Theorem merge_data_length_ranked results_df ranks_df :
  NoDup (ranks_key <$> ranks_df) →
  length (merge_data results_df ranks_df) =
    length (filter (λ r, results_key r ∈ ranks_key <$> ranks_df) results_df).
Proof.
  intros Hnd. induction results_df as [|r results_df IH]; [done|].
  rewrite merge_data_length_cons, IH.
  destruct (decide (results_key r ∈ ranks_key <$> ranks_df)) as [Hin|Hout].
  - rewrite filter_cons_True by done.
    by rewrite (filter_present_key ranks_key) by done.
  - rewrite filter_cons_False by done. by rewrite filter_absent_key.
Qed.

Lemma merge_data_length_ranked_witness :
  NoDup (ranks_key <$> [Sample.alice_rank; Sample.bob_rank]) ∧
  length (merge_data [Sample.alice_result; Sample.alice_result]
            [Sample.alice_rank; Sample.bob_rank]) = 2%nat.
Proof.
  assert (NoDup (ranks_key <$> [Sample.alice_rank; Sample.bob_rank])) as Hnd.
  { apply NoDup_cons. split; [|apply NoDup_singleton].
    apply not_elem_of_cons. split; [discriminate|apply not_elem_of_nil]. }
  split; [exact Hnd|].
  exact (merge_data_length_ranked [Sample.alice_result; Sample.alice_result]
           [Sample.alice_rank; Sample.bob_rank] Hnd).
Defined.

(** Property X5. The check made after loading stops the script exactly when
    one of the two tables has no row. It lets through two tables with rows
    that share no key, and the unified table is then empty. *)
Theorem startup_spec results_df ranks_df :
  (startup results_df ranks_df = None ↔ results_df = [] ∨ ranks_df = []) ∧
  (startup results_df ranks_df = Some [] ↔
   results_df ≠ [] ∧ ranks_df ≠ [] ∧
   ∀ r k, r ∈ results_df → k ∈ ranks_df → results_key r ≠ ranks_key k).
Proof.
  unfold startup.
  destruct results_df as [|r results_df], ranks_df as [|k ranks_df]; cbn [empty orb].
  - split; split; try done; [by left|by intros [? _]].
  - split; split; try done; [by left|by intros [? _]].
  - split; split; try done; [by right|by intros (_ & ? & _)].
  - split; [split; [done|by intros [?|?]]|].
    split.
    + intros [= Hm]. split_and!; [done..|]. by apply merge_data_nil_iff.
    + intros (_ & _ & Hno). f_equal. by apply merge_data_nil_iff.
Qed.

(** ** The drop-down lists *)

Lemma filter_all {A} (P : A → Prop) `{!∀ x, Decision (P x)} (l : list A) :
  (∀ x, x ∈ l → P x) → filter P l = l.
Proof.
  induction l as [|y l IH]; intros Hall; [done|].
  rewrite filter_cons_True by apply Hall, list_elem_of_here.
  f_equal. apply IH. intros x Hx. by apply Hall, list_elem_of_further.
Qed.

Lemma unique_elem {A} `{EqDecision A} (l : list A) x : x ∈ unique l ↔ x ∈ l.
Proof.
  induction l as [|y l IH]; [done|]. cbn [unique].
  rewrite !elem_of_cons, list_elem_of_filter, IH.
  destruct (decide (x = y)); tauto.
Qed.

Lemma unique_NoDup {A} `{EqDecision A} (l : list A) : NoDup (unique l).
Proof.
  induction l as [|y l IH]; [constructor|]. cbn [unique].
  apply NoDup_cons. split; [|by apply NoDup_filter].
  rewrite list_elem_of_filter. tauto.
Qed.

Lemma unique_app {A} `{EqDecision A} (l1 l2 : list A) :
  unique (l1 ++ l2) = unique l1 ++ filter (λ y, y ∉ l1) (unique l2).
Proof.
  induction l1 as [|x l1 IH]; cbn [app unique].
  - symmetry. apply filter_all. intros y _. apply not_elem_of_nil.
  - rewrite IH, filter_app, list_filter_filter. do 2 f_equal.
    apply list_filter_iff. intros y. rewrite not_elem_of_cons. tauto.
Qed.

(** Property X6. Each drop-down offers every event (country) of the unified
    table once: the list has no duplicates and holds exactly the values of
    the column. *)
Theorem available_spec merged_df :
  (NoDup (available_events merged_df) ∧
   ∀ e, e ∈ available_events merged_df ↔
        ∃ row, row ∈ merged_df ∧ Merged.eventId row = e) ∧
  (NoDup (available_regions merged_df) ∧
   ∀ c, c ∈ available_regions merged_df ↔
        ∃ row, row ∈ merged_df ∧ Merged.personCountryId row = c).
Proof.
  unfold available_events, available_regions.
  split; (split; [apply unique_NoDup|]); intros x;
    rewrite unique_elem, list_elem_of_fmap;
    (split; intros (row & H1 & H2); by exists row).
Qed.

(** Property X7. The offered events come in order of first appearance: rows
    added at the end of the table leave the list as it was and append the
    events that are new, in their own order of first appearance. *)
Theorem available_events_app rows more :
  available_events (rows ++ more) =
    available_events rows ++
    filter (λ e, e ∉ available_events rows) (available_events more).
Proof.
  unfold available_events. rewrite fmap_app, unique_app. f_equal.
  apply list_filter_iff. intros e. by rewrite unique_elem.
Qed.

(** Property X8. For an event or a country that the drop-downs do not offer,
    no person is returned at any rank: the answer is [None], unless the rank
    is an integer too large for a float, for which the comparison raises
    [OverflowError]. *)
Theorem get_person_by_rank_not_offered merged_df event_id region rank_number :
  event_id ∉ available_events merged_df ∨ region ∉ available_regions merged_df →
  get_person_by_rank merged_df event_id region rank_number = Ok None ∨
  (∃ n, rank_number = rank n ∧ float32_of_int n = Raise OverflowError ∧
        get_person_by_rank merged_df event_id region rank_number
          = Raise OverflowError).
Proof.
  intros Hout.
  destruct (resolved_rank (filtered_subset merged_df event_id region) rank_number)
    as [resolved|e] eqn:Hres.
  - left.
    destruct (get_person_by_rank_first merged_df event_id region rank_number resolved Hres)
      as [[Hnone _]|(pre & first & post & Hsplit & _ & [[Hev Hreg] _] & _)]; [done|].
    assert (first ∈ merged_df) as Hin.
    { rewrite Hsplit. apply elem_of_app. right. apply list_elem_of_here. }
    destruct Hout as [Hout|Hout]; destruct Hout;
      apply unique_elem, list_elem_of_fmap; by exists first.
  - right. destruct rank_number as [|n]; [done|]. cbn [resolved_rank] in Hres.
    pose proof (float32_of_int_raise n e Hres) as ->.
    exists n. split_and!; [done..|]. by apply get_person_by_rank_raise.
Qed.

Lemma get_person_by_rank_not_offered_witness :
  ("444" ∉ available_events [Sample.alice; Sample.bob]) ∧
  get_person_by_rank [Sample.alice; Sample.bob] "444" "US" (rank 1) = Ok None.
Proof.
  assert ("444" ∉ available_events [Sample.alice; Sample.bob]) as Hout.
  { vm_compute. intros Hin. apply list_elem_of_singleton in Hin. discriminate. }
  split; [exact Hout|].
  destruct (get_person_by_rank_not_offered [Sample.alice; Sample.bob] "444" "US" (rank 1)
              (or_introl Hout)) as [H|(n & Hn & Hraise & _)]; [exact H|].
  injection Hn as <-. vm_compute in Hraise. discriminate.
Defined.

(** ** Display names and the way back to the event code *)

(** The outcomes of [format_event_name]: an unknown code comes back as it
    is, a known one gives its entry of the table. *)
Lemma format_event_name_cases event_id :
  ((event_id ∉ event_table.*1) ∧ format_event_name event_id = event_id) ∨
  (event_id, format_event_name event_id) ∈ event_table.
Proof.
  unfold format_event_name. cbv zeta.
  change (list_to_map _ !! event_id)
    with ((list_to_map event_table : gmap string string) !! event_id).
  destruct (list_to_map event_table !! event_id) as [name|] eqn:Hlookup.
  - right. by apply elem_of_list_to_map_2 in Hlookup.
  - left. split; [|reflexivity]. by apply not_elem_of_list_to_map.
Qed.

Lemma event_table_names_NoDup : NoDup event_table.*2.
Proof. apply (bool_decide_unpack _). by vm_compute. Qed.

Lemma NoDup_snd_inj (l : list (string * string)) k1 k2 v :
  NoDup l.*2 → (k1, v) ∈ l → (k2, v) ∈ l → k1 = k2.
Proof.
  induction l as [|[k v'] l IH]; intros Hnd H1 H2.
  - by apply not_elem_of_nil in H1.
  - rewrite fmap_cons in Hnd. cbn [snd] in Hnd. apply NoDup_cons in Hnd as [Hv Hnd].
    apply elem_of_cons in H1 as [H1|H1], H2 as [H2|H2].
    + congruence.
    + injection H1 as -> ->. destruct Hv.
      apply list_elem_of_fmap. by exists (k2, v').
    + injection H2 as -> ->. destruct Hv.
      apply list_elem_of_fmap. by exists (k1, v').
    + by apply IH.
Qed.

(** Case analysis on [H : (x, y) ∈ l] for a list [l] given by its items. *)
Ltac entry_cases H :=
  repeat (apply elem_of_cons in H as [H|H]; [apply pair_equal_spec in H as [-> H]|]);
  [..|by apply not_elem_of_nil in H].

(** Property X9. The fallback of the lookup: an event code comes back
    unchanged exactly when it is not a key of the table; every key gets a
    name different from the key. *)
Theorem format_event_name_unknown event_id :
  format_event_name event_id = event_id ↔ event_id ∉ event_table.*1.
Proof.
  destruct (format_event_name_cases event_id) as [[Hout Heq]|Hin]; [done|].
  split.
  - intros Heq. rewrite Heq in Hin. unfold event_table in Hin.
    entry_cases Hin; discriminate.
  - intros Hout. destruct Hout. apply list_elem_of_fmap.
    by exists (event_id, format_event_name event_id).
Qed.

(** Property X10. A display name is never itself an event code of the table:
    formatting a formatted name changes nothing. *)
Theorem format_event_name_idempotent event_id :
  format_event_name (format_event_name event_id) = format_event_name event_id.
Proof.
  destruct (format_event_name_cases event_id) as [[_ H]|Hin]; [by rewrite !H|].
  unfold event_table in Hin. entry_cases Hin; rewrite Hin; by vm_compute.
Qed.

Lemma format_event_name_same e1 e2 :
  format_event_name e1 = format_event_name e2 →
  e1 = e2 ∨ e1 = format_event_name e2 ∨ e2 = format_event_name e1.
Proof.
  intros Heq.
  destruct (format_event_name_cases e1) as [[_ H1]|H1].
  { rewrite H1 in Heq. by right; left. }
  destruct (format_event_name_cases e2) as [[_ H2]|H2].
  { rewrite H2 in Heq. by right; right. }
  left. rewrite <- Heq in H2.
  exact (NoDup_snd_inj event_table e1 e2 _ event_table_names_NoDup H1 H2).
Qed.

(** Property X11. Two event codes get the same display name only when they
    are equal or one of them is literally the display name of the other. *)
Theorem format_event_name_collision e1 e2 :
  format_event_name e1 = format_event_name e2 →
  e1 = e2 ∨ e1 = format_event_name e2 ∨ e2 = format_event_name e1.
Proof. apply format_event_name_same. Qed.

Lemma format_event_name_collision_witness :
  format_event_name "333" = format_event_name "3x3" ∧
  ("333" = "3x3" ∨ "333" = format_event_name "3x3" ∨ "3x3" = format_event_name "333").
Proof.
  assert (format_event_name "333" = format_event_name "3x3") as H by reflexivity.
  split; [exact H|]. exact (format_event_name_collision "333" "3x3" H).
Defined.

Lemma unique_NoDup_id {A} `{EqDecision A} (l : list A) : NoDup l → unique l = l.
Proof.
  induction l as [|x l IH]; intros Hnd; [done|].
  apply NoDup_cons in Hnd as [Hx Hnd]. cbn [unique]. rewrite IH by done.
  f_equal. apply filter_all. intros y Hy ->. done.
Qed.

Lemma dict_set_absent d k v : k ∉ d.*1 → dict_set d k v = d ++ [(k, v)].
Proof.
  induction d as [|[k' v'] d IH]; intros Hk; [done|].
  rewrite fmap_cons in Hk. apply not_elem_of_cons in Hk as [Hne Hk].
  cbn [dict_set fst] in *. rewrite decide_False by done.
  by rewrite IH.
Qed.

Lemma dict_set_same (f : string → string) us k :
  k ∈ us → dict_set ((λ e, (e, f e)) <$> us) k (f k) = (λ e, (e, f e)) <$> us.
Proof.
  induction us as [|u us IH]; intros Hk.
  - by apply not_elem_of_nil in Hk.
  - rewrite fmap_cons. cbn [dict_set].
    destruct (decide (u = k)) as [->|Hne]; [done|].
    apply elem_of_cons in Hk as [->|Hk]; [done|]. by rewrite IH.
Qed.

Lemma foldl_dict_set (f : string → string) l : ∀ us,
  foldl (λ d eid, dict_set d eid (f eid)) ((λ e, (e, f e)) <$> us) l =
    (λ e, (e, f e)) <$> (us ++ filter (λ y, y ∉ us) (unique l)).
Proof.
  induction l as [|x l IH]; intros us; cbn [foldl unique].
  - by rewrite filter_nil, app_nil_r.
  - destruct (decide (x ∈ us)) as [Hin|Hout].
    + rewrite dict_set_same, IH by done.
      rewrite filter_cons_False by tauto.
      rewrite list_filter_filter. do 2 f_equal.
      apply list_filter_iff. intros y. split; [|tauto].
      intros Hy. split; [done|]. by intros ->.
    + rewrite dict_set_absent.
      2:{ rewrite <- list_fmap_compose. by rewrite list_fmap_id. }
      change [(x, f x)] with ((λ e, (e, f e)) <$> [x]).
      rewrite <- fmap_app, IH, filter_cons_True by done.
      rewrite list_filter_filter, <- app_assoc. cbn [app]. do 3 f_equal.
      apply list_filter_iff. intros y.
      rewrite not_elem_of_app, list_elem_of_singleton. tauto.
Qed.

Lemma formatted_events_items events :
  formatted_events events = (λ e, (e, format_event_name e)) <$> unique events.
Proof.
  unfold formatted_events.
  change (@nil (string * string))
    with ((λ e, (e, format_event_name e)) <$> @nil string).
  rewrite foldl_dict_set. cbn [app]. f_equal.
  apply filter_all. intros y _. apply not_elem_of_nil.
Qed.

(** Property X12. The dictionary built for the drop-down has one item per
    distinct event, at the place of its first appearance, holding the
    event's display name; repeated events change nothing. *)
Theorem formatted_events_unique events :
  formatted_events events = (λ e, (e, format_event_name e)) <$> unique events.
Proof. apply formatted_events_items. Qed.

Lemma list_index_first (f : string → string) display us :
  (Forall (λ e, f e ≠ display) us ∧
   list_index display (f <$> us) = NotFound NotInList) ∨
  (∃ pre eid post,
     us = pre ++ eid :: post ∧ Forall (λ e, f e ≠ display) pre ∧
     f eid = display ∧ list_index display (f <$> us) = Found (length pre)).
Proof.
  unfold list_index. induction us as [|u us IH]; [by left|].
  rewrite fmap_cons. cbn [list_find].
  destruct (decide (f u = display)) as [Heq|Hne].
  - right. exists [], u, us. by split_and!.
  - destruct IH as [[Hall Hnone]|(pre & eid & post & -> & Hpre & Heid & Hfound)].
    + left. split; [by apply Forall_cons_2|].
      by destruct (list_find _ (f <$> us)) as [[??]|].
    + right. exists (u :: pre), eid, post. split_and!; try done.
      * by apply Forall_cons_2.
      * destruct (list_find _ (f <$> (pre ++ eid :: post))) as [[??]|]; [|done].
        cbn in *. congruence.
Qed.

Lemma selected_event_id_cases merged_df event_id_display :
  let events := available_events merged_df in
  (Forall (λ e, format_event_name e ≠ event_id_display) events ∧
   selected_event_id events event_id_display = NotFound NotInList) ∨
  (∃ pre eid post,
     events = pre ++ eid :: post ∧
     Forall (λ e, format_event_name e ≠ event_id_display) pre ∧
     format_event_name eid = event_id_display ∧
     selected_event_id events event_id_display = Found eid).
Proof.
  intros events. unfold selected_event_id. cbv zeta.
  rewrite formatted_events_items.
  rewrite (unique_NoDup_id events) by apply unique_NoDup.
  rewrite <- !list_fmap_compose.
  change (snd ∘ _) with format_event_name.
  change (fst ∘ _) with (@id string). rewrite list_fmap_id.
  destruct (list_index_first format_event_name event_id_display events)
    as [[Hall ->]|(pre & eid & post & Hsplit & Hpre & Heid & ->)]; [by left|].
  right. exists pre, eid, post. split_and!; try done.
  unfold list_item. by rewrite Hsplit, list_lookup_middle.
Qed.

(** Property X13. Choosing a display name in the drop-down selects the first
    offered event that has this name; a text that is no offered name raises
    the [ValueError] of [list.index], and the index is never out of range. *)
Theorem selected_event_id_first merged_df event_id_display :
  let events := available_events merged_df in
  (Forall (λ e, format_event_name e ≠ event_id_display) events ∧
   selected_event_id events event_id_display = NotFound NotInList) ∨
  (∃ pre eid post,
     events = pre ++ eid :: post ∧
     Forall (λ e, format_event_name e ≠ event_id_display) pre ∧
     format_event_name eid = event_id_display ∧
     selected_event_id events event_id_display = Found eid).
Proof. apply selected_event_id_cases. Qed.

(** Property X14. When no offered event code is itself the display name of
    another offered event, choosing the display name of an offered event
    selects that event. *)
Theorem selected_event_id_roundtrip merged_df eid :
  eid ∈ available_events merged_df →
  (∀ e e', e ∈ available_events merged_df → e' ∈ available_events merged_df →
           e = format_event_name e' → e = e') →
  selected_event_id (available_events merged_df) (format_event_name eid) = Found eid.
Proof.
  intros Hin Hdistinct.
  destruct (selected_event_id_cases merged_df (format_event_name eid))
    as [[Hall _]|(pre & eid' & post & Hsplit & _ & Heq & ->)].
  - rewrite Forall_forall in Hall. by destruct (Hall eid Hin).
  - f_equal.
    assert (eid' ∈ available_events merged_df) as Hin'.
    { rewrite Hsplit. apply elem_of_app. right. apply list_elem_of_here. }
    destruct (format_event_name_same eid' eid Heq) as [?|[?|?]]; [done|..].
    + by apply Hdistinct.
    + symmetry. by apply Hdistinct.
Qed.

Lemma selected_event_id_roundtrip_witness :
  available_events [Sample.alice; Sample.erin; Sample.bob] = ["333"; "444"] ∧
  selected_event_id (available_events [Sample.alice; Sample.erin; Sample.bob])
    (format_event_name "444") = Found "444".
Proof.
  split; [reflexivity|].
  apply (selected_event_id_roundtrip [Sample.alice; Sample.erin; Sample.bob] "444").
  - vm_compute. apply list_elem_of_further, list_elem_of_here.
  - intros e e' He He' Heq. vm_compute in He, He'.
    apply elem_of_cons in He as [->|He], He' as [->|He'];
      try (apply list_elem_of_singleton in He as ->);
      try (apply list_elem_of_singleton in He' as ->);
      try reflexivity; vm_compute in Heq; discriminate.
Defined.

(** ** The formatters, continued *)

Lemma format_rank_finite q : ∃ s, format_rank (Finite q) = Ok s.
Proof.
  unfold format_rank. cbn [int_of_float]. py_step.
  repeat case_decide; by eexists.
Qed.

(** Property X15. [format_rank] raises exactly on the values that are no
    finite number: [ValueError] on not-a-number, [OverflowError] on an
    infinity. *)
Theorem format_rank_raises rank :
  (format_rank rank = Raise ValueError ↔ rank = NaN) ∧
  (format_rank rank = Raise OverflowError ↔ rank = PosInf ∨ rank = NegInf) ∧
  ((∃ s, format_rank rank = Ok s) ↔ ∃ q, rank = Finite q).
Proof.
  destruct rank as [| |q|].
  - split_and!; split; try done; intros H; by destruct H.
  - split_and!; split; try done; [intros _; by right|intros [??]; done..].
  - destruct (format_rank_finite q) as [s Hs]. rewrite Hs.
    split_and!; split; try done; [intros [?|?]; done|by eexists..].
  - split_and!; split; try done; [intros _; by left|intros [??]; done..].
Qed.

Lemma int_of_float_of_int n : int_of_float (float_of_int n) = Ok n.
Proof.
  unfold float_of_int, int_of_float, Q2Qc. cbn [this].
  rewrite Qred_identity by (cbn; apply Z.gcd_1_r).
  cbn [inject_Z Qnum Qden]. by rewrite Z.quot_1_r.
Qed.

Lemma format_rank_of_int n :
  ∃ suffix, format_rank (float_of_int n) = Ok (str n +:+ suffix).
Proof.
  unfold format_rank. rewrite int_of_float_of_int. py_step.
  repeat case_decide; by eexists.
Qed.

(** The general form of the texts of [format_time] parses back to its three
    numbers. *)
Lemma parse_time_text m s f :
  0 ≤ m → 0 ≤ s < 100 → 0 ≤ f < 100 →
  parse_time (if decide (0 < m)
              then str m +:+ ":" +:+ two_digits s +:+ "." +:+ two_digits f
              else str s +:+ "." +:+ two_digits f) =
    Ok (m, s, f).
Proof.
  intros Hm Hs Hf. unfold parse_time.
  destruct (decide (0 < m)) as [Hpos|Hzero].
  - destruct (parse_time_seconds s f ltac:(lia) Hf (two_digits s))
      as (_ & cs & Hsplit & Hcs); [right; split; [lia|done]|].
    destruct (decimal_digits_spec m Hm) as (_ & Hd & _).
    rewrite (chars_app (str m)), (chars_app ":"), str_nonneg, chars_of_chars by done.
    change (list_ascii_of_string ":") with [":"%char]. cbn [app].
    rewrite split_at_first by (by apply digit_chars_no_colon).
    rewrite <- str_nonneg, int_of_str_str by done. py_step.
    rewrite Hsplit. py_step. rewrite Hcs. py_step.
    by rewrite string_of_list_ascii_of_string, int_of_str_two_digits by done.
  - assert (m = 0) as -> by lia.
    destruct (parse_time_seconds s f ltac:(lia) Hf (str s))
      as (Hcolon & cs & Hsplit & Hcs); [by left|].
    rewrite split_at_absent by done. py_step.
    rewrite Hsplit. py_step. rewrite Hcs. py_step.
    by rewrite string_of_list_ascii_of_string, int_of_str_two_digits by done.
Qed.

(** Property X16. Two different non-negative times never get the same text. *)
Theorem format_time_injective a b :
  0 ≤ a → 0 ≤ b → format_time a = format_time b → a = b.
Proof.
  intros Ha Hb Heq. apply (f_equal parse_time) in Heq.
  rewrite !format_time_eq in Heq. cbv zeta in Heq.
  destruct (divmod_6000_bounds a) as (Has & Haf & _).
  destruct (divmod_6000_bounds b) as (Hbs & Hbf & _).
  rewrite !parse_time_text in Heq by (done || apply Z.div_pos; lia).
  injection Heq as Hm Hs Hf.
  pose proof (Z.div_mod a 6000 ltac:(lia)).
  pose proof (Z.div_mod b 6000 ltac:(lia)).
  pose proof (Z.div_mod (a `mod` 6000) 100 ltac:(lia)).
  pose proof (Z.div_mod (b `mod` 6000) 100 ltac:(lia)).
  lia.
Qed.

Lemma format_time_injective_witness :
  0 ≤ 305 ∧ format_time 305 = format_time 305 ∧ 305 = 305.
Proof.
  split; [lia|]. split; [reflexivity|].
  apply (format_time_injective 305 305); [lia|lia|reflexivity].
Defined.

(** Property X17. Below one minute the minutes are not shown, whatever their
    value: a time under 6000 centiseconds, a negative one included, is shown
    as its remainder modulo 6000. *)
Theorem format_time_wraps centiseconds :
  centiseconds < 6000 →
  format_time centiseconds = format_time (centiseconds `mod` 6000).
Proof.
  intros Hlt. rewrite !format_time_eq. cbv zeta.
  pose proof (Z.mod_pos_bound centiseconds 6000 ltac:(lia)).
  rewrite Z.mod_mod by lia.
  rewrite (Z.div_small (centiseconds `mod` 6000) 6000) by lia.
  assert (centiseconds `div` 6000 ≤ 0).
  { apply Z.lt_succ_r, Z.div_lt_upper_bound; lia. }
  by rewrite !decide_False by lia.
Qed.

Lemma format_time_wraps_witness :
  -1 < 6000 ∧ format_time (-1) = format_time 5999.
Proof.
  split; [lia|]. apply (format_time_wraps (-1)). lia.
Defined.

Lemma int_of_str_str_any n : int_of_str (str n) = Ok n.
Proof.
  destruct (Z.le_gt_cases 0 n) as [Hpos|Hneg]; [by apply int_of_str_str|].
  unfold str, int_of_str. rewrite chars_of_chars.
  assert (sign_chars n = ["-"%char]) as ->.
  { unfold sign_chars. by destruct (Z.ltb_spec n 0); [|lia]. }
  cbn [app]. rewrite decide_True by done.
  destruct (decimal_digits_spec (Z.abs n) (Z.abs_nonneg n)) as (Hv & Hd & Hl & _).
  unfold digit_chars. rewrite parse_unsigned_chars; [|done|].
  - py_step. rewrite Hv. f_equal. lia.
  - apply nonempty_length. lia.
Qed.

(** Property X18. For the fewest-moves event the text is the move count in
    decimal, below and above 100 alike: reading the text as an integer gives
    [best] back, for every integer. *)
Theorem format_best_result_333fm_roundtrip best :
  ∃ s, format_best_result "333fm" best = Ok s ∧ int_of_str s = Ok best.
Proof.
  exists (str best). split; [|apply int_of_str_str_any].
  unfold format_best_result. rewrite decide_False by done.
  rewrite decide_True by done. by destruct (best <? 100).
Qed.

Lemma padded_length_width (w : nat) n k (ds : list Z) :
  0 ≤ n → Z.of_nat w ≤ k → 0 < k → n < 10 ^ k →
  (k = Z.of_nat w ∨ 10 ^ (k - 1) ≤ n) →
  length ds = (w `max` length (decimal_digits n))%nat →
  Z.of_nat (length ds) = k.
Proof.
  intros Hn Hk Hk0 Hub Hlb Hlen.
  destruct (decimal_digits_spec n Hn) as (_ & _ & Hl & Hub' & Hlb').
  set (len := length (decimal_digits n)) in *.
  assert (Z.of_nat len ≤ k) as Hle.
  { destruct Hlb' as [->|Hlb']; [lia|].
    apply Z.lt_pred_le, (Z.pow_lt_mono_r_iff 10); [lia..|].
    rewrite <- Z.sub_1_r. lia. }
  destruct Hlb as [->|Hlb]; [lia|].
  assert (k - 1 < Z.of_nat len); [|lia].
  apply (Z.pow_lt_mono_r_iff 10); lia.
Qed.

Lemma int_of_str_minus_digits ds :
  Forall is_digit ds → ds ≠ [] →
  int_of_str (string_of_list_ascii ("-"%char :: (ascii_of_digit <$> ds))) =
    Ok (- digits_value ds).
Proof.
  intros Hds Hne. unfold int_of_str. rewrite chars_of_chars.
  rewrite decide_True by done. by rewrite parse_unsigned_chars by done.
Qed.

(** Property X19. A negative [best] is decoded all the same: the minus sign
    takes the place of the first character, so with [a = -best] written on
    [k] digits after padding to 7, the points are minus the first digit of
    [a], the time is made of the digits from the second to the third last,
    and the missed count of the last two. *)
Theorem format_mbf_result_negative best k :
  best < 0 → 7 ≤ k → - best < 10 ^ k → (k = 7 ∨ 10 ^ (k - 1) ≤ - best) →
  format_mbf_result best =
    Ok (mbf_text (- ((- best) `div` 10 ^ (k - 1)))
          (((- best) `div` 100) `mod` 10 ^ (k - 3))
          ((- best) `mod` 100)).
Proof.
  intros Hneg Hk Hub Hlb.
  destruct (format_0d_chars 8 best) as (ds & Hchars & Hds & Hv & Hlen).
  assert (sign_chars best = ["-"%char]) as Hsign.
  { unfold sign_chars. by destruct (Z.ltb_spec best 0); [|lia]. }
  rewrite Hsign in Hchars, Hlen. cbn [app length] in Hchars, Hlen.
  rewrite Z.abs_neq in Hv, Hlen by lia.
  pose proof (padded_length_width 7 (- best) k ds ltac:(lia) ltac:(lia) ltac:(lia)
                Hub Hlb Hlen) as HL.
  assert (0 < 10 ^ (k - 3)) as Hp by (apply Z.pow_pos_nonneg; lia).
  assert (10 ^ (k - 1) = 100 * 10 ^ (k - 3)) as Hp2.
  { replace (k - 1) with (2 + (k - 3)) by lia. by rewrite Z.pow_add_r by lia. }
  apply format_mbf_result_bind.
  - unfold slice_to. rewrite Hchars. cbn [take]. rewrite <- fmap_take.
    rewrite int_of_str_minus_digits;
      [|by apply Forall_take|apply nonempty_length; rewrite length_take; lia].
    rewrite digits_value_take, Hv by (done || lia).
    by replace (Z.of_nat (length ds - 1)) with (k - 1) by lia.
  - unfold slice_mid. cbv zeta. rewrite Hchars. cbn [length drop].
    rewrite length_fmap, <- fmap_drop, <- fmap_take.
    rewrite int_of_str_digits;
      [|by apply Forall_take, Forall_drop
       |apply nonempty_length; rewrite length_take, length_drop; lia].
    rewrite digits_value_take by (by apply Forall_drop || (rewrite length_drop; lia)).
    rewrite digits_value_drop, Hv by (done || lia).
    rewrite length_drop.
    replace (length ds - 1 - (S (length ds) - 2 - 2))%nat with 2%nat by lia.
    replace (Z.of_nat (length ds - 1)) with (k - 1) by lia.
    rewrite Hp2. change (10 ^ Z.of_nat 2) with 100. f_equal. by apply mod_mul_div.
  - unfold slice_last. cbv zeta. rewrite Hchars. cbn [length].
    rewrite length_fmap.
    replace (S (length ds) - 2)%nat with (S (length ds - 2)) by lia.
    cbn [drop]. rewrite <- fmap_drop.
    rewrite int_of_str_digits;
      [|by apply Forall_drop|apply nonempty_length; rewrite length_drop; lia].
    rewrite digits_value_drop, Hv by (done || lia).
    by replace (length ds - (length ds - 2))%nat with 2%nat by lia.
Qed.

Lemma format_mbf_result_negative_witness :
  -123456789 < 0 ∧ format_mbf_result (-123456789) = Ok "189/278 3909:27".
Proof.
  split; [lia|].
  apply (format_mbf_result_negative (-123456789) 9); [lia|lia|reflexivity|].
  right. by vm_compute.
Defined.

(** ** The rank query, continued *)

Lemma at_rank_spec event_id region r row :
  at_rank event_id region r row ↔
  Merged.eventId row = event_id ∧ Merged.personCountryId row = region ∧
  Merged.countryRank row = r ∧ r ≠ NaN.
Proof.
  unfold at_rank. rewrite Is_true_true, float_eqb_true. tauto.
Qed.

Lemma get_person_by_rank_Some merged_df event_id region rank_number person :
  get_person_by_rank merged_df event_id region rank_number = Ok (Some person) →
  person ∈ merged_df ∧
  Merged.eventId person = event_id ∧
  Merged.personCountryId person = region ∧
  resolved_rank (filtered_subset merged_df event_id region) rank_number
    = Ok (Merged.countryRank person) ∧
  Merged.countryRank person ≠ NaN.
Proof.
  intros Hsome.
  destruct (resolved_rank (filtered_subset merged_df event_id region) rank_number)
    as [resolved|e] eqn:Hres.
  2:{ apply get_person_by_rank_raise in Hres. congruence. }
  destruct (get_person_by_rank_first merged_df event_id region rank_number resolved Hres)
    as [[Hnone _]|(pre & first & post & Hsplit & _ & Hfirst & Hget)]; [congruence|].
  assert (first = person) as -> by congruence.
  apply at_rank_spec in Hfirst as (Hev & Hreg & Hrank & Hnum).
  split_and!; try done; [|by rewrite Hrank|congruence].
  rewrite Hsplit. apply elem_of_app. right. apply list_elem_of_here.
Qed.

(** Property X20. The record returned for a query answers it: it is a row of
    the table, of the event and the country asked for, and its rank is the
    resolved rank (for an integer, its value as a [float32]), which is a
    number. *)
Theorem get_person_by_rank_sound merged_df event_id region rank_number person :
  get_person_by_rank merged_df event_id region rank_number = Ok (Some person) →
  person ∈ merged_df ∧
  Merged.eventId person = event_id ∧
  Merged.personCountryId person = region ∧
  resolved_rank (filtered_subset merged_df event_id region) rank_number
    = Ok (Merged.countryRank person) ∧
  Merged.countryRank person ≠ NaN.
Proof. apply get_person_by_rank_Some. Qed.

Lemma get_person_by_rank_sound_witness :
  get_person_by_rank [Sample.alice; Sample.grace] "333" "US" (rank 16777217)
    = Ok (Some Sample.grace) ∧
  float32_of_int 16777217 = Ok (float_of_int 16777216).
Proof.
  assert (get_person_by_rank [Sample.alice; Sample.grace] "333" "US" (rank 16777217)
            = Ok (Some Sample.grace)) as H by reflexivity.
  split; [exact H|].
  exact (proj1 (proj2 (proj2 (proj2
    (get_person_by_rank_sound _ _ _ _ _ H))))).
Defined.

Lemma get_person_by_rank_found merged_df event_id region rank_number :
  (∃ person, get_person_by_rank merged_df event_id region rank_number
               = Ok (Some person)) ↔
  ∃ resolved,
    resolved_rank (filtered_subset merged_df event_id region) rank_number
      = Ok resolved ∧
    ∃ row, row ∈ merged_df ∧ at_rank event_id region resolved row.
Proof.
  split.
  - intros [person Hsome].
    apply get_person_by_rank_Some in Hsome as (Hin & Hev & Hreg & Hres & Hnum).
    exists (Merged.countryRank person). split; [done|].
    exists person. split; [done|]. by apply at_rank_spec.
  - intros (resolved & Hres & row & Hin & Hrow).
    destruct (get_person_by_rank_first merged_df event_id region rank_number resolved Hres)
      as [[_ Hall]|(pre & first & post & _ & _ & _ & Hget)]; [|by eexists].
    rewrite Forall_forall in Hall. by destruct (Hall row Hin).
Qed.

(** Property X21. An integer rank finds a person exactly when its conversion
    to [float32] succeeds and the table has a row of the event and the
    country whose rank equals the converted value; the query raises exactly
    when the conversion does; up to [2^24] the converted value is the
    integer itself. *)
Theorem get_person_by_rank_numeric merged_df event_id region n :
  ((∃ person, get_person_by_rank merged_df event_id region (rank n)
                = Ok (Some person)) ↔
   ∃ resolved,
     float32_of_int n = Ok resolved ∧
     ∃ row, row ∈ merged_df ∧ Merged.eventId row = event_id ∧
            Merged.personCountryId row = region ∧
            Merged.countryRank row = resolved) ∧
  (get_person_by_rank merged_df event_id region (rank n) = Raise OverflowError ↔
   float32_of_int n = Raise OverflowError) ∧
  (Z.abs n ≤ 2 ^ 24 → float32_of_int n = Ok (float_of_int n)).
Proof.
  split_and!.
  - rewrite get_person_by_rank_found. cbn [resolved_rank].
    split; intros (resolved & Hres & row & Hin & Hrow); exists resolved;
      (split; [done|]); exists row; (split; [done|]).
    + apply at_rank_spec in Hrow. tauto.
    + destruct Hrow as (? & ? & ?). apply at_rank_spec. split_and!; try done.
      by apply (float32_of_int_not_nan n).
  - apply get_person_by_rank_raise.
  - apply float32_of_int_exact.
Qed.

Lemma get_person_by_rank_lowest_is_Some merged_df event_id region :
  (∃ person, get_person_by_rank merged_df event_id region lowest
               = Ok (Some person)) ↔
  ∃ row, row ∈ merged_df ∧ Merged.eventId row = event_id ∧
         Merged.personCountryId row = region ∧
         Merged.countryRank row ≠ NaN.
Proof.
  rewrite get_person_by_rank_found. cbn [resolved_rank].
  set (subset := filtered_subset merged_df event_id region).
  set (column := Merged.countryRank <$> subset).
  split.
  - intros (resolved & [= <-] & row & Hin & Hrow). exists row. split; [done|].
    apply at_rank_spec in Hrow as (? & ? & -> & ?). by split_and!.
  - intros (row & Hin & Hev & Hreg & Hnum).
    assert (¬ Forall (λ x, x = NaN) column) as Hcol.
    { rewrite Forall_forall. intros Hall. apply Hnum, Hall.
      apply list_elem_of_fmap. exists row. split; [done|].
      by apply filtered_subset_elem. }
    destruct (series_max_is_max column Hcol) as (Hm & Hmax & _).
    apply list_elem_of_fmap in Hmax as (best & Hbest & Hin').
    apply filtered_subset_elem in Hin' as (Hin' & Hev' & Hreg').
    exists (series_max column). split; [done|].
    exists best. split; [done|]. apply at_rank_spec. by split_and!.
Qed.

(** Property X22. The rank ["lowest"] finds a person exactly when the table
    has a row of the event and the country whose rank is a number. *)
Theorem get_person_by_rank_lowest_found merged_df event_id region :
  (∃ person, get_person_by_rank merged_df event_id region lowest
               = Ok (Some person)) ↔
  ∃ row, row ∈ merged_df ∧ Merged.eventId row = event_id ∧
         Merged.personCountryId row = region ∧
         Merged.countryRank row ≠ NaN.
Proof. apply get_person_by_rank_lowest_is_Some. Qed.

(** Property X23. The answer depends only on the rows of the event and the
    country asked for: the other rows of the table can be dropped first. *)
Theorem get_person_by_rank_subset merged_df event_id region rank_number :
  get_person_by_rank (filtered_subset merged_df event_id region)
    event_id region rank_number =
  get_person_by_rank merged_df event_id region rank_number.
Proof.
  assert (filtered_subset (filtered_subset merged_df event_id region) event_id region
          = filtered_subset merged_df event_id region) as Hidem.
  { unfold filtered_subset. by apply list_filter_filter_l. }
  rewrite !get_person_by_rank_eq, Hidem.
  destruct (resolved_rank (filtered_subset merged_df event_id region) rank_number)
    as [resolved|e]; [|done]. py_step. do 2 f_equal.
  unfold filtered_subset. rewrite list_filter_filter_l; [done|].
  intros row. unfold at_rank. tauto.
Qed.

(** Property X24. Whoever is found at a numeric rank is not ranked below the
    person found for ["lowest"], and ["lowest"] finds someone whenever a
    number does. *)
Theorem get_person_by_rank_lowest_bound merged_df event_id region n person :
  get_person_by_rank merged_df event_id region (rank n) = Ok (Some person) →
  ∃ last, get_person_by_rank merged_df event_id region lowest = Ok (Some last) ∧
          float_ltb (Merged.countryRank last) (Merged.countryRank person) = false.
Proof.
  intros Hsome.
  apply get_person_by_rank_Some in Hsome as (Hin & Hev & Hreg & _ & Hnum).
  destruct (proj2 (get_person_by_rank_lowest_is_Some merged_df event_id region))
    as [last Hlast]; [by exists person|].
  exists last. split; [done|].
  apply get_person_by_rank_Some in Hlast as (_ & _ & _ & Hrank & Hnum').
  cbn [resolved_rank] in Hrank. injection Hrank as Hrank.
  set (column := Merged.countryRank <$> filtered_subset merged_df event_id region) in *.
  assert (¬ Forall (λ x, x = NaN) column) as Hcol.
  { intros Hall. apply series_max_nan in Hall. congruence. }
  destruct (series_max_is_max column Hcol) as (_ & _ & Hub).
  rewrite <- Hrank. apply Hub; [|done].
  apply list_elem_of_fmap. exists person. split; [done|].
  by apply filtered_subset_elem.
Qed.

Lemma get_person_by_rank_lowest_bound_witness :
  get_person_by_rank [Sample.alice; Sample.bob] "333" "US" (rank 1)
    = Ok (Some Sample.alice) ∧
  ∃ last, get_person_by_rank [Sample.alice; Sample.bob] "333" "US" lowest
            = Ok (Some last) ∧
          float_ltb (Merged.countryRank last) (Merged.countryRank Sample.alice) = false.
Proof.
  assert (get_person_by_rank [Sample.alice; Sample.bob] "333" "US" (rank 1)
            = Ok (Some Sample.alice)) as H by reflexivity.
  split; [exact H|].
  exact (get_person_by_rank_lowest_bound _ _ _ _ _ H).
Defined.

(** ** The search handler *)

Lemma show_Some person :
  show (Some person) [] =
    match format_rank (Merged.countryRank person) with
    | Raise e => (page_head person, Raise e)
    | Ok rank_text =>
        match format_best_result (Merged.eventId person) (Merged.best person) with
        | Raise e =>
            (page_head person ++ [Write ("**Rank**: " +:+ rank_text)], Raise e)
        | Ok best_text =>
            (page_head person ++
               [Write ("**Rank**: " +:+ rank_text);
                Write ("**Best Result**: " +:+ best_text)], Ok ())
        end
    end.
Proof.
  unfold show, mbind, ui_bind, emit, eval, page_head. cbn [app].
  destruct (format_rank (Merged.countryRank person)) as [rank_text|e]; [|reflexivity].
  by destruct (format_best_result (Merged.eventId person) (Merged.best person)).
Qed.

Lemma search_unfold merged_df event_id region rank_number :
  search merged_df event_id region rank_number =
    match parse_rank rank_number with
    | Raise e => [ErrorBox e]
    | Ok rank_number =>
        match get_person_by_rank merged_df event_id region rank_number with
        | Raise e => [ErrorBox e]
        | Ok None => [Warning "No person found with the specified criteria."]
        | Ok (Some person) =>
            page_head person ++
            match format_rank (Merged.countryRank person) with
            | Raise e => [ErrorBox e]
            | Ok rank_text =>
                Write ("**Rank**: " +:+ rank_text) ::
                match format_best_result (Merged.eventId person)
                        (Merged.best person) with
                | Raise e => [ErrorBox e]
                | Ok best_text => [Write ("**Best Result**: " +:+ best_text)]
                end
            end
        end
    end.
Proof.
  unfold search, try_except.
  unfold mbind at 1, ui_bind at 1, eval at 1.
  destruct (parse_rank rank_number) as [spec|e]; [|reflexivity].
  unfold mbind at 1, ui_bind at 1, eval at 1.
  destruct (get_person_by_rank merged_df event_id region spec) as [[person|]|e];
    [|reflexivity..].
  rewrite show_Some.
  destruct (format_rank (Merged.countryRank person)) as [rank_text|e]; [|reflexivity].
  destruct (format_best_result (Merged.eventId person) (Merged.best person));
    cbn [app]; by rewrite <- ?app_assoc.
Qed.

Lemma format_best_result_no_raise event_id best e :
  format_best_result event_id best ≠ Raise e.
Proof.
  unfold format_best_result. repeat case_decide; try done.
  by destruct (format_mbf_result_total best) as [s ->].
Qed.

Lemma format_rank_whole n :
  format_rank (float_of_int n) = Ok (str n +:+ ordinal_suffix n).
Proof.
  unfold format_rank, ordinal_suffix. rewrite int_of_float_of_int. py_step.
  by repeat case_decide.
Qed.

Lemma int_of_text_raise s e : int_of_text s = Raise e → e = ValueError.
Proof.
  unfold int_of_text. cbv zeta.
  destruct (match lstrip (list_ascii_of_string s) with
            | [] => (false, [])
            | c :: cs' => _
            end) as [negative cs].
  destruct (read_digits false cs) as [[ds rest]|]; [|congruence].
  destruct (forallb is_space rest && (length ds <=? 4300)%nat); congruence.
Qed.

Lemma parse_rank_raise rank_number e :
  parse_rank rank_number = Raise e → e = ValueError.
Proof.
  unfold parse_rank. case_decide; [|done].
  destruct (int_of_text rank_number) as [n|e'] eqn:Hint; py_step; [done|].
  intros [= <-]. by apply int_of_text_raise in Hint.
Qed.

(** Property X25. When the text reads as an integer of at most [2^24] in
    absolute value and the query finds a person, the handler writes the
    whole page and no error: the event and the country are the ones asked
    for, the rank line shows the integer followed by ["st"] for 1, ["nd"]
    for 2, ["rd"] for 3 and ["th"] otherwise, and the result line the
    formatted best result. *)
Theorem search_numeric_found merged_df event_id region rank_number n person :
  parse_rank rank_number = Ok (rank n) →
  Z.abs n ≤ 2 ^ 24 →
  get_person_by_rank merged_df event_id region (rank n) = Ok (Some person) →
  ∃ best_text,
    format_best_result event_id (Merged.best person) = Ok best_text ∧
    search merged_df event_id region rank_number =
      [ Subheader ("Rank Info for " +:+ Merged.personName person);
        Write ("**Name**: " +:+ Merged.personName person);
        Write ("**Event**: " +:+ format_event_name event_id);
        Write ("**Country**: " +:+ region);
        Write ("**Rank**: " +:+ str n +:+ ordinal_suffix n);
        Write ("**Best Result**: " +:+ best_text) ].
Proof.
  intros Hparse Hn Hsome. rewrite search_unfold, Hparse, Hsome.
  apply get_person_by_rank_Some in Hsome as (_ & Hev & Hreg & Hrank & _).
  cbn [resolved_rank] in Hrank. rewrite float32_of_int_exact in Hrank by done.
  injection Hrank as Hrank. unfold page_head.
  rewrite <- Hrank, Hev, Hreg, format_rank_whole.
  destruct (format_best_result event_id (Merged.best person)) as [best_text|e] eqn:Hbest.
  - by exists best_text.
  - by apply format_best_result_no_raise in Hbest.
Qed.

Lemma search_numeric_found_witness :
  parse_rank " 2 " = Ok (rank 2) ∧ Z.abs 2 ≤ 2 ^ 24 ∧
  get_person_by_rank [Sample.alice; Sample.bob] "333" "US" (rank 2)
    = Ok (Some Sample.bob) ∧
  search [Sample.alice; Sample.bob] "333" "US" " 2 " =
    [ Subheader "Rank Info for Bob"; Write "**Name**: Bob";
      Write "**Event**: 3x3"; Write "**Country**: US";
      Write "**Rank**: 2nd"; Write "**Best Result**: 7.10" ].
Proof.
  assert (parse_rank " 2 " = Ok (rank 2)) as Hparse by reflexivity.
  assert (Z.abs 2 ≤ 2 ^ 24) as Hn by (by vm_compute).
  assert (get_person_by_rank [Sample.alice; Sample.bob] "333" "US" (rank 2)
            = Ok (Some Sample.bob)) as H by reflexivity.
  split; [exact Hparse|]. split; [exact Hn|]. split; [exact H|].
  destruct (search_numeric_found _ _ _ _ _ _ Hparse Hn H) as (best_text & Hbest & ->).
  vm_compute in Hbest. injection Hbest as <-. reflexivity.
Defined.

(** Property X26. The warning is shown, alone, exactly when the text is
    understood and the query finds nobody. *)
Theorem search_not_found merged_df event_id region rank_number :
  search merged_df event_id region rank_number =
    [Warning "No person found with the specified criteria."] ↔
  ∃ spec, parse_rank rank_number = Ok spec ∧
          get_person_by_rank merged_df event_id region spec = Ok None.
Proof.
  rewrite search_unfold.
  destruct (parse_rank rank_number) as [spec|e].
  2:{ split; [discriminate|]. by intros (spec & ? & _). }
  destruct (get_person_by_rank merged_df event_id region spec)
    as [[person|]|e] eqn:Hget.
  - split; [unfold page_head; cbn [app]; discriminate|].
    intros (spec' & [= <-] & Hget'). congruence.
  - split; [by exists spec|done].
  - split; [discriminate|]. intros (spec' & [= <-] & Hget'). congruence.
Qed.

(** Property X27. The [except] branch is reached in three ways only: the
    text is neither the word "lowest" nor an integer, which gives
    [ValueError] on an empty page; the integer is too large for a float,
    which gives the [OverflowError] of the comparison on an empty page; or
    the rank of the person found is an infinity, which gives the
    [OverflowError] of [format_rank] after the header, the name, the event
    and the country. *)
Theorem search_error merged_df event_id region rank_number e :
  ErrorBox e ∈ search merged_df event_id region rank_number →
  (parse_rank rank_number = Raise ValueError ∧ e = ValueError ∧
   search merged_df event_id region rank_number = [ErrorBox ValueError]) ∨
  (∃ n, parse_rank rank_number = Ok (rank n) ∧
        float32_of_int n = Raise OverflowError ∧ e = OverflowError ∧
        search merged_df event_id region rank_number = [ErrorBox OverflowError]) ∨
  (∃ spec person,
     parse_rank rank_number = Ok spec ∧
     get_person_by_rank merged_df event_id region spec = Ok (Some person) ∧
     (Merged.countryRank person = PosInf ∨ Merged.countryRank person = NegInf) ∧
     e = OverflowError ∧
     search merged_df event_id region rank_number =
       page_head person ++ [ErrorBox OverflowError]).
Proof.
  rewrite search_unfold.
  destruct (parse_rank rank_number) as [spec|e0] eqn:Hparse.
  2:{ intros Hin. apply list_elem_of_singleton in Hin. injection Hin as ->.
      apply parse_rank_raise in Hparse as Heq. subst e0. by left. }
  destruct (get_person_by_rank merged_df event_id region spec)
    as [[person|]|e0] eqn:Hget.
  - pose proof (get_person_by_rank_Some _ _ _ _ _ Hget) as (_ & _ & _ & _ & Hnum).
    assert (∀ x, ErrorBox e ∈ page_head person ++ x → ErrorBox e ∈ x) as Hhead.
    { intros x Hin. apply elem_of_app in Hin as [Hin|Hin]; [|done].
      unfold page_head in Hin.
      repeat (apply elem_of_cons in Hin as [Hin|Hin]; [discriminate|]).
      by apply not_elem_of_nil in Hin. }
    destruct (format_rank (Merged.countryRank person)) as [rank_text|e'] eqn:Hfmt.
    + intros Hin%Hhead. apply elem_of_cons in Hin as [Hin|Hin]; [discriminate|].
      destruct (format_best_result (Merged.eventId person) (Merged.best person))
        as [best_text|e''] eqn:Hbest.
      * apply list_elem_of_singleton in Hin. discriminate.
      * by apply format_best_result_no_raise in Hbest.
    + intros Hin%Hhead. apply list_elem_of_singleton in Hin. injection Hin as ->.
      right; right. exists spec, person.
      destruct (Merged.countryRank person) as [| |q|] eqn:Hfloat; try done.
      * injection Hfmt as <-. by split_and!; [| |right| |].
      * by destruct (format_rank_finite q) as [s Hs]; rewrite Hs in Hfmt.
      * injection Hfmt as <-. by split_and!; [| |left| |].
  - intros Hin. apply list_elem_of_singleton in Hin. discriminate.
  - intros Hin. apply list_elem_of_singleton in Hin. injection Hin as ->.
    right; left. apply get_person_by_rank_raise in Hget.
    destruct spec as [|n]; [done|]. cbn [resolved_rank] in Hget.
    pose proof (float32_of_int_raise n e0 Hget) as ->. by exists n.
Qed.

Lemma search_error_witness :
  ErrorBox ValueError ∈ search [Sample.alice; Sample.bob] "333" "US" "first" ∧
  search [Sample.alice; Sample.bob] "333" "US" "first" = [ErrorBox ValueError].
Proof.
  assert (ErrorBox ValueError ∈ search [Sample.alice; Sample.bob] "333" "US" "first")
    as H.
  { vm_compute. apply list_elem_of_here. }
  split; [exact H|].
  destruct (search_error _ _ _ _ _ H)
    as [(_ & _ & Hpage)|[(n & _ & _ & He & _)|(spec & person & _ & _ & _ & He & _)]];
    [exact Hpage|discriminate..].
Defined.

(** ** The text of the rank *)

Lemma lower_digit_char d : is_digit d → lower_char (ascii_of_digit d) = ascii_of_digit d.
Proof. intros Hd. by digit_cases Hd. Qed.

Lemma digit_char_not_space d : is_digit d → is_space (ascii_of_digit d) = false.
Proof. intros Hd. by digit_cases Hd. Qed.

Lemma read_digits_all ds : ∀ after_digit,
  Forall is_digit ds → (ds ≠ [] ∨ after_digit = true) →
  read_digits after_digit (ascii_of_digit <$> ds) = Some (ds, []).
Proof.
  induction ds as [|d ds IH]; intros after_digit Hds Hne.
  - by destruct Hne as [?| ->].
  - inversion_clear Hds as [|?? Hd Hds']. cbn [fmap list_fmap read_digits].
    rewrite digit_ascii_roundtrip by done.
    change (list_fmap _ _ ascii_of_digit ds) with (ascii_of_digit <$> ds).
    by rewrite IH by (done || by right).
Qed.

(** Property X28. Typing a rank in decimal selects that rank: for every
    integer [n] from 0 on with at most 4300 digits, the handler reads the
    text [str n] as the integer rank [n]. *)
Theorem parse_rank_decimal n :
  0 ≤ n < 10 ^ 4300 → parse_rank (str n) = Ok (rank n).
Proof.
  intros [Hn Hub].
  destruct (decimal_digits_spec n Hn) as (Hv & Hd & Hl & _ & Hlb).
  assert (length (decimal_digits n) ≤ 4300)%nat as Hlen.
  { destruct Hlb as [Hlb|Hlb]; [clear Hub; lia|].
    pose proof (Z.le_lt_trans _ _ _ Hlb Hub) as Hpow. clear Hub Hlb.
    apply Z.pow_lt_mono_r_iff in Hpow; [lia|lia|done]. }
  clear Hub Hlb. rewrite str_nonneg by done.
  destruct (decimal_digits n) as [|d ds] eqn:Hds; [simpl in Hl; lia|].
  pose proof (Forall_inv Hd) as Hd1.
  unfold parse_rank. rewrite decide_True.
  2:{ unfold lower. rewrite chars_of_chars, !fmap_cons. cbn [string_of_list_ascii].
      rewrite lower_digit_char by done. intros [= Hc _].
      by digit_cases Hd1. }
  unfold int_of_text. rewrite chars_of_chars, fmap_cons. cbn [lstrip].
  rewrite digit_char_not_space by done.
  destruct (ascii_of_digit_not_sign d Hd1) as [Hm Hp].
  rewrite !decide_False by done.
  change (ascii_of_digit d :: (ascii_of_digit <$> ds))
    with (ascii_of_digit <$> (d :: ds)).
  rewrite read_digits_all by (done || by left). cbn [forallb andb].
  destruct (Nat.leb_spec (length (d :: ds)) 4300) as [_|Hbig]; [|lia].
  py_step. by rewrite Hv.
Qed.

Lemma parse_rank_decimal_witness :
  0 ≤ 12 < 10 ^ 4300 ∧ parse_rank (str 12) = Ok (rank 12).
Proof.
  assert (0 ≤ 12 < 10 ^ 4300) as H by (split; [lia|reflexivity]).
  split; [exact H|]. exact (parse_rank_decimal 12 H).
Defined.
